(** * MentalHealthAIApp: the conversation session engine

    A shallow embedding of [src/MentalHealthAIApp.tsx]: the crisis-keyword
    classifier, the message log, the outbound payload window and the
    [handleSend] round trip, followed by the properties the specification
    states about them.

    Strings are sequences of code units below 256 (Rocq's [ascii]); on
    that range the JavaScript built-ins used by the component
    ([toLowerCase], [includes], [trim], truthiness) are modelled exactly. *)

From Stdlib Require Import Bool Arith Lia List ZArith Ascii String.
Import ListNotations.

Open Scope string_scope.
Open Scope list_scope.
Open Scope nat_scope.

(** ** JavaScript built-ins used by the component *)

Module JS.

(** [String.prototype.toLowerCase] on one code unit: A-Z, and the
    Latin-1 capitals U+00C0-U+00DE except the multiplication sign
    U+00D7, move up by 32; every other unit below 256 is unchanged. *)
Definition toLowerUnit (c : ascii) : ascii :=
  let n := nat_of_ascii c in
  if ((65 <=? n) && (n <=? 90))
     || ((192 <=? n) && (n <=? 222) && negb (n =? 215))
  then ascii_of_nat (n + 32)
  else c.

Fixpoint toLowerCase (s : string) : string :=
  match s with
  | EmptyString => EmptyString
  | String c s' => String (toLowerUnit c) (toLowerCase s')
  end.

(** [s.startsWith(p)] *)
Fixpoint startsWith (s p : string) {struct p} : bool :=
  match p, s with
  | EmptyString, _ => true
  | String _ _, EmptyString => false
  | String b p', String a s' => Ascii.eqb a b && startsWith s' p'
  end.

(** [s.includes(p)]: [p] occurs in [s] at some position. *)
Fixpoint includes (s p : string) : bool :=
  startsWith s p
  || match s with
     | EmptyString => false
     | String _ s' => includes s' p
     end.

(** White space and line terminators below 256: TAB, LF, VT, FF, CR,
    SPACE and NO-BREAK SPACE. *)
Definition isWhiteSpace (c : ascii) : bool :=
  let n := nat_of_ascii c in
  ((9 <=? n) && (n <=? 13)) || (n =? 32) || (n =? 160).

Fixpoint trimStart (s : string) : string :=
  match s with
  | EmptyString => EmptyString
  | String c s' => if isWhiteSpace c then trimStart s' else s
  end.

(** Drops the trailing white space: a unit is kept when it is not white
    space or when something is kept after it. *)
Fixpoint trimEnd (s : string) : string :=
  match s with
  | EmptyString => EmptyString
  | String c s' =>
      match trimEnd s' with
      | EmptyString => if isWhiteSpace c then EmptyString
                       else String c EmptyString
      | r => String c r
      end
  end.

(** [s.trim()] *)
Definition trim (s : string) : string := trimEnd (trimStart s).

(** Truthiness of a string value: only the empty string is falsy. *)
Definition truthy (s : string) : bool :=
  match s with
  | EmptyString => false
  | String _ _ => true
  end.

(** [l.slice(-n)]: the start index is [max (length l - n) 0]. *)
Definition slice_last {A : Type} (n : nat) (l : list A) : list A :=
  skipn (List.length l - n) l.

(** [l.some(p)] *)
Definition some {A : Type} (p : A -> bool) (l : list A) : bool :=
  existsb p l.

End JS.

(** ** Crisis classifier (lines 16-31) *)

Definition CRISIS_KEYWORDS : list string :=
  [ "suicide";
    "kill myself";
    "end my life";
    "want to die";
    "hurt myself";
    "harm myself";
    "violent";
    "no reason to live" ].

Definition containsCrisis (text : string) : bool :=
  if negb (JS.truthy text) then false
  else
    let lower := JS.toLowerCase text in
    JS.some (fun kw => JS.includes lower kw) CRISIS_KEYWORDS.

(** ** Data model (lines 3-14) *)

Inductive Role : Type := system | assistant | user.

Record Message : Type := mkMessage {
  id : Z;
  role : Role;
  text : string;
  time : string
}.

(** An element of [Payload.messages] as it exists at run time.  The array
    is built by [messages.concat([{ role, text }])]: the log's [Message]
    objects are placed in it as they are, and the new turn is the object
    literal with the two fields [role] and [text]. *)
Inductive PayloadEntry : Type :=
| LogEntry (m : Message)
| RoleText (r : Role) (t : string).

Definition entry_role (e : PayloadEntry) : Role :=
  match e with
  | LogEntry m => role m
  | RoleText r _ => r
  end.

Definition entry_text (e : PayloadEntry) : string :=
  match e with
  | LogEntry m => text m
  | RoleText _ t => t
  end.

(** The own property names of an entry, which [JSON.stringify] writes in
    this order. *)
Definition entry_keys (e : PayloadEntry) : list string :=
  match e with
  | LogEntry _ => ["id"; "role"; "text"; "time"]
  | RoleText _ _ => ["role"; "text"]
  end.

Record Settings : Type := mkSettings { settings_tone : string }.

Record Metadata : Type := mkMetadata { metadata_userName : string }.

Record Payload : Type := mkPayload {
  payload_messages : list PayloadEntry;
  payload_settings : Settings;
  payload_metadata : Metadata
}.

(** ** Component state (lines 34-58)

    One field per [useState] hook, and [messageId] for the
    [useRef] counter. *)

Record State : Type := mkState {
  messages : list Message;
  input : string;
  loading : bool;
  showCrisisModal : bool;
  userName : string;
  consentChecked : bool;
  settingsOpen : bool;
  tone : string;
  error : option string;
  messageId : Z
}.

Definition SYSTEM_PROMPT : string :=
  "You are a compassionate, nonjudgmental mental health assistant. Provide psychoeducation, empathic reflections, coping strategies, and encourage users to seek professional help when appropriate. If the user describes imminent danger or self-harm, immediately display crisis resources and encourage contacting local emergency services.".

Definition GREETING : string :=
  "Hi — I'm here to listen and to help you understand what's going on. You can share whatever you feel comfortable with. If this is an emergency or you're thinking of harming yourself, please tell me and I'll help you find immediate support.".

(** The fixed texts are written as in the source.  The dash in them lies
    outside the range of single units and takes three units in a literal
    here; no function of the component inspects these texts.

    The values the hooks are initialised with; [now] is the result of
    [new Date().toISOString()] at the first render. *)
Definition initialState (now : string) : State :=
  {| messages :=
       [ {| id := 0; role := system; text := SYSTEM_PROMPT; time := now |};
         {| id := 1; role := assistant; text := GREETING; time := now |} ];
     input := "";
     loading := false;
     showCrisisModal := false;
     userName := "";
     consentChecked := false;
     settingsOpen := false;
     tone := "compassionate";
     error := None;
     messageId := 2 |}.

(** ** Transport outcomes

    What [await fetch(...)] and [await res.json()] can produce.  A body
    that parses is read through the two properties the handler uses:
    [reply] (absent, or a string) and [flagged] (absent, or a boolean).
    A body on which [res.json()] rejects or on which reading a property
    throws is [BodyMalformed]. *)

Record ResponseData : Type := mkData {
  reply : option string;
  flagged : option bool
}.

Inductive Body : Type :=
| BodyMalformed
| BodyJson (data : ResponseData).

Record Response : Type := mkResponse {
  status : Z;
  body : Body
}.

(** [res.ok]: the status is in the range 200-299. *)
Definition ok (res : Response) : bool :=
  ((200 <=? status res) && (status res <=? 299))%Z.

Inductive FetchOutcome : Type :=
| FetchRejected
| FetchResolved (res : Response).

(** ** Effects of the handlers

    A handler closes over the values of the render it was created in and
    acts on the live component through the state setters, the
    [messageId] ref, [fetch] and [console.error].  Each call is recorded
    in a trace, in program order. *)

Inductive Effect : Type :=
| ESetMessages (m : Message)
| ESetInput (s : string)
| ESetLoading (b : bool)
| ESetShowCrisisModal (b : bool)
| ESetError (e : option string)
| ESetUserName (s : string)
| ESetTone (s : string)
| ESetConsentChecked (b : bool)
| EFetch (p : Payload)
| EConsoleError.

Record World : Type := mkWorld {
  st : State;
  trace : list Effect
}.

Inductive Exception : Type :=
| NetworkFailure
| ServerError (code : Z)
| ParseFailure.

Inductive Completion (A : Type) : Type :=
| Normal (a : A)
| Throw (e : Exception).

Arguments Normal {A} a.
Arguments Throw {A} e.

Definition M (A : Type) : Type := World -> Completion A * World.

Definition ret {A : Type} (a : A) : M A := fun w => (Normal a, w).

Definition bind {A B : Type} (m : M A) (k : A -> M B) : M B :=
  fun w =>
    match m w with
    | (Normal a, w') => k a w'
    | (Throw e, w') => (Throw e, w')
    end.

Definition throw {A : Type} (e : Exception) : M A := fun w => (Throw e, w).

(** [try { body } catch (e) { handler } finally { fin }] *)
Definition try_catch_finally
  (body : M unit) (handler : Exception -> M unit) (fin : M unit) : M unit :=
  fun w =>
    let (c, w1) := match body w with
                   | (Normal _, w') => (Normal tt, w')
                   | (Throw e, w') => handler e w'
                   end in
    match fin w1 with
    | (Normal _, w2) => (c, w2)
    | (Throw e, w2) => (Throw e, w2)
    end.

Declare Scope action_scope.
Delimit Scope action_scope with action.

Notation "x <- m ;; k" := (bind m (fun x => k))
  (at level 61, m at next level, right associativity) : action_scope.
Notation "m ;; k" := (bind m (fun _ => k))
  (at level 61, right associativity) : action_scope.

Open Scope action_scope.

Definition when (b : bool) (m : M unit) : M unit :=
  if b then m else ret tt.

(** An update of the live state, recorded in the trace. *)
Definition effect (e : Effect) (f : State -> State) : M unit :=
  fun w => (Normal tt, {| st := f (st w); trace := trace w ++ [e] |}).

Definition setInput (s : string) : M unit :=
  effect (ESetInput s)
    (fun p => {| messages := messages p; input := s; loading := loading p;
                 showCrisisModal := showCrisisModal p; userName := userName p;
                 consentChecked := consentChecked p;
                 settingsOpen := settingsOpen p; tone := tone p;
                 error := error p; messageId := messageId p |}).

Definition setLoading (b : bool) : M unit :=
  effect (ESetLoading b)
    (fun p => {| messages := messages p; input := input p; loading := b;
                 showCrisisModal := showCrisisModal p; userName := userName p;
                 consentChecked := consentChecked p;
                 settingsOpen := settingsOpen p; tone := tone p;
                 error := error p; messageId := messageId p |}).

Definition setShowCrisisModal (b : bool) : M unit :=
  effect (ESetShowCrisisModal b)
    (fun p => {| messages := messages p; input := input p;
                 loading := loading p;
                 showCrisisModal := b; userName := userName p;
                 consentChecked := consentChecked p;
                 settingsOpen := settingsOpen p; tone := tone p;
                 error := error p; messageId := messageId p |}).

Definition setError (e : option string) : M unit :=
  effect (ESetError e)
    (fun p => {| messages := messages p; input := input p;
                 loading := loading p;
                 showCrisisModal := showCrisisModal p; userName := userName p;
                 consentChecked := consentChecked p;
                 settingsOpen := settingsOpen p; tone := tone p;
                 error := e; messageId := messageId p |}).

Definition setUserName (v : string) : M unit :=
  effect (ESetUserName v)
    (fun p => {| messages := messages p; input := input p;
                 loading := loading p;
                 showCrisisModal := showCrisisModal p; userName := v;
                 consentChecked := consentChecked p;
                 settingsOpen := settingsOpen p; tone := tone p;
                 error := error p; messageId := messageId p |}).

Definition setTone (v : string) : M unit :=
  effect (ESetTone v)
    (fun p => {| messages := messages p; input := input p;
                 loading := loading p;
                 showCrisisModal := showCrisisModal p; userName := userName p;
                 consentChecked := consentChecked p;
                 settingsOpen := settingsOpen p; tone := v;
                 error := error p; messageId := messageId p |}).

Definition setConsentChecked (b : bool) : M unit :=
  effect (ESetConsentChecked b)
    (fun p => {| messages := messages p; input := input p;
                 loading := loading p;
                 showCrisisModal := showCrisisModal p; userName := userName p;
                 consentChecked := b;
                 settingsOpen := settingsOpen p; tone := tone p;
                 error := error p; messageId := messageId p |}).

(** [fetch("/api/ai", { method: "POST", ..., body: JSON.stringify(payload) })]:
    the request leaves; its outcome arrives when the promise settles. *)
Definition fetch (p : Payload) : M unit :=
  effect (EFetch p) (fun s => s).

Definition console_error : M unit :=
  effect EConsoleError (fun s => s).

(** Lines 67-71.  The ref is read and incremented at once;
    [setMessages((prev) => [...prev, m])] appends to the live log. *)
Definition addMessage (r : Role) (t : string) (now : string) : M Message :=
  fun w =>
    let m := {| id := messageId (st w); role := r; text := t; time := now |} in
    let p := st w in
    (Normal m,
     {| st := {| messages := messages p ++ [m]; input := input p;
                 loading := loading p;
                 showCrisisModal := showCrisisModal p;
                 userName := userName p;
                 consentChecked := consentChecked p;
                 settingsOpen := settingsOpen p; tone := tone p;
                 error := error p; messageId := (messageId p + 1)%Z |};
        trace := trace w ++ [ESetMessages m] |}).

(** ** The send handler (lines 73-117)

    [r] is the render the handler closes over: [input], [consentChecked],
    [messages], [tone], [userName] and [showCrisisModal] are read from it
    and stay as they were at that render, also after the [await]. *)

Definition CONSENT_ERROR : string :=
  "Please confirm that you consent to have this conversation processed by the assistant.".

Definition NO_REPLY_TEXT : string :=
  "Sorry — I couldn't generate a response.".

Definition SEND_ERROR : string :=
  "Failed to reach the assistant. Try again later.".

Definition APOLOGY_TEXT : string :=
  "I'm having trouble right now. Please try again later.".

(** Lines 92-96: the request body. *)
Definition payload (r : State) (userText : string) : Payload :=
  {| payload_messages :=
       JS.slice_last 20
         (map LogEntry (messages r) ++ [RoleText user userText]);
     payload_settings := {| settings_tone := tone r |};
     payload_metadata := {| metadata_userName := userName r |} |}.

(** How a call of the async function stands when control returns to the
    caller: it has returned, or it waits for the request it sent. *)
Inductive SendStatus : Type :=
| Returned
| Suspended (userText : string).

(** Lines 74-102: the part that runs before the first [await] gives
    control back. *)
Definition handleSend_sync (r : State) (now : string) : M SendStatus :=
  if negb (JS.truthy (JS.trim (input r))) then ret Returned
  else
    (setError None ;;
     if negb (consentChecked r) then
       (setError (Some CONSENT_ERROR) ;;
        ret Returned)
     else
       let userText := JS.trim (input r) in
       (_ <- addMessage user userText now ;;
        setInput "" ;;
        when (containsCrisis userText) (setShowCrisisModal true) ;;
        setLoading true ;;
        fetch (payload r userText) ;;
        ret (Suspended userText))).

Definition await_fetch (o : FetchOutcome) : M Response :=
  match o with
  | FetchRejected => throw NetworkFailure
  | FetchResolved res => ret res
  end.

Definition await_json (res : Response) : M ResponseData :=
  match body res with
  | BodyMalformed => throw ParseFailure
  | BodyJson data => ret data
  end.

(** Truthiness of [data.flagged]. *)
Definition is_flagged (data : ResponseData) : bool :=
  match flagged data with
  | Some b => b
  | None => false
  end.

(** [data.reply || fallback] *)
Definition reply_or (data : ResponseData) (fallback : string) : string :=
  match reply data with
  | Some t => if JS.truthy t then t else fallback
  | None => fallback
  end.

(** Lines 98-109: the rest of the [try] block, once the request has
    settled with outcome [o]. *)
Definition handleSend_try (r : State) (o : FetchOutcome) (now : string)
  : M unit :=
  res <- await_fetch o ;;
  (if negb (ok res) then throw (ServerError (status res)) else ret tt) ;;
  data <- await_json res ;;
  when (is_flagged data && negb (showCrisisModal r))
       (setShowCrisisModal true) ;;
  _ <- addMessage assistant (reply_or data NO_REPLY_TEXT) now ;;
  ret tt.

(** Lines 110-113. *)
Definition handleSend_catch (now : string) (e : Exception) : M unit :=
  console_error ;;
  setError (Some SEND_ERROR) ;;
  _ <- addMessage assistant APOLOGY_TEXT now ;;
  ret tt.

(** The continuation of a suspended call. *)
Definition handleSend_resume (r : State) (o : FetchOutcome) (now : string)
  : M unit :=
  try_catch_finally
    (handleSend_try r o now)
    (handleSend_catch now)
    (setLoading false).

(** One whole call with nothing else happening in between: [now1] is the
    clock when the handler starts, [o] the outcome of the request and
    [now2] the clock when it settles. *)
Definition handleSend (r : State) (now1 : string) (o : FetchOutcome)
  (now2 : string) : M unit :=
  s <- handleSend_sync r now1 ;;
  match s with
  | Returned => ret tt
  | Suspended _ => handleSend_resume r o now2
  end.

(** Running a handler created in render [r] against the component in
    that same state, with an empty trace. *)
Definition start (r : State) : World := {| st := r; trace := [] |}.

(** ** The other handlers of the component *)

Record KeyboardEvent : Type := mkKeyboardEvent {
  key : string;
  metaKey : bool;
  ctrlKey : bool
}.

(** Lines 119-123. *)
Definition handleKeyDown (r : State) (e : KeyboardEvent) (now : string)
  : M SendStatus :=
  if String.eqb (key e) "Enter" && (metaKey e || ctrlKey e)
  then handleSend_sync r now
  else ret Returned.

(** Line 219: [<button onClick={handleSend} disabled={loading}>]; a
    disabled button delivers no click. *)
Definition sendButtonClick (r : State) (now : string) : M SendStatus :=
  if loading r then ret Returned else handleSend_sync r now.

(** Line 220: [<button onClick={() => setInput('')}>Clear</button>]. *)
Definition clearButtonClick : M unit := setInput "".

(** Line 237: the Close button of the crisis dialog. *)
Definition closeCrisisModalClick : M unit := setShowCrisisModal false.

(** ** The component over time

    The live component together with the calls of [handleSend] that wait
    for their request, oldest first; each is kept as the render it closed
    over.  An event handler runs against the render of the current
    state. *)

Record Session : Type := mkSession {
  live : World;
  inflight : list State
}.

Inductive Event : Type :=
| ChangeInput (v : string)
| ChangeUserName (v : string)
| ChangeTone (v : string)
| ChangeConsent (b : bool)
| ClickSend (now : string)
| KeyDown (e : KeyboardEvent) (now : string)
| ClickClear
| CloseCrisisModal
| Settle (n : nat) (o : FetchOutcome) (now : string).

Definition act (m : M unit) (s : Session) : Session :=
  {| live := snd (m (live s)); inflight := inflight s |}.

Definition launch (m : M SendStatus) (s : Session) : Session :=
  match m (live s) with
  | (Normal (Suspended _), w) =>
      {| live := w; inflight := inflight s ++ [st (live s)] |}
  | (_, w) => {| live := w; inflight := inflight s |}
  end.

Fixpoint remove_nth {A : Type} (n : nat) (l : list A) : list A :=
  match l, n with
  | [], _ => []
  | _ :: l', O => l'
  | a :: l', S n' => a :: remove_nth n' l'
  end.

Definition step (s : Session) (e : Event) : Session :=
  let r := st (live s) in
  match e with
  | ChangeInput v => act (setInput v) s
  | ChangeUserName v => act (setUserName v) s
  | ChangeTone v => act (setTone v) s
  | ChangeConsent b => act (setConsentChecked b) s
  | ClickSend now => launch (sendButtonClick r now) s
  | KeyDown e now => launch (handleKeyDown r e now) s
  | ClickClear => act clearButtonClick s
  | CloseCrisisModal => act closeCrisisModalClick s
  | Settle n o now =>
      match nth_error (inflight s) n with
      | Some c =>
          {| live := snd (handleSend_resume c o now (live s));
             inflight := remove_nth n (inflight s) |}
      | None => s
      end
  end.

Definition run_events (s : Session) (es : list Event) : Session :=
  fold_left step es s.

(** The component after its first render. *)
Definition boot (now : string) : Session :=
  {| live := start (initialState now); inflight := [] |}.

(** The requests sent in a trace, in order. *)
Fixpoint requests (t : list Effect) : list Payload :=
  match t with
  | [] => []
  | EFetch p :: t' => p :: requests t'
  | _ :: t' => requests t'
  end.

(** ** Notions of the specification *)

(** The crisis phrases as the specification lists them. *)
Definition crisis_phrases : list string :=
  [ "suicide"; "kill myself"; "end my life"; "want to die";
    "hurt myself"; "harm myself"; "violent"; "no reason to live" ].

(** A capital letter: A-Z or a Latin-1 capital. *)
Definition is_capital (c : ascii) : Prop :=
  let n := nat_of_ascii c in
  (65 <= n <= 90) \/ (192 <= n <= 222 /\ n <> 215).

(** [a] and [b] are the same unit, or the capital and the small form of
    one letter. *)
Definition same_ignoring_case (a b : ascii) : Prop :=
  a = b
  \/ (is_capital a /\ nat_of_ascii b = nat_of_ascii a + 32)
  \/ (is_capital b /\ nat_of_ascii a = nat_of_ascii b + 32).

Inductive matches_ignoring_case : string -> string -> Prop :=
| mic_empty : matches_ignoring_case "" ""
| mic_unit (a b : ascii) (s t : string) :
    same_ignoring_case a b ->
    matches_ignoring_case s t ->
    matches_ignoring_case (String a s) (String b t).

(** [phrase] occurs in [t] somewhere, in any mix of capitals and small
    letters, whatever surrounds it. *)
Definition contains_ignoring_case (t phrase : string) : Prop :=
  exists pre mid post : string,
    t = (pre ++ mid ++ post)%string /\ matches_ignoring_case mid phrase.

Definition mentions_crisis (t : string) : Prop :=
  exists phrase, In phrase crisis_phrases /\ contains_ignoring_case t phrase.

(** A submit passes validation when the input does not trim to the empty
    string and consent is given. *)
Definition passes_validation (r : State) : bool :=
  JS.truthy (JS.trim (input r)) && consentChecked r.

(** The transport call succeeds when the request resolves with a success
    status and a body that parses; [transport_result] is then the parsed
    body.  Every other outcome is a failure: network error, non-success
    status, malformed body. *)
Definition transport_result (o : FetchOutcome) : option ResponseData :=
  match o with
  | FetchRejected => None
  | FetchResolved res =>
      if ok res then
        match body res with
        | BodyJson data => Some data
        | BodyMalformed => None
        end
      else None
  end.


(** Whether a trace touches the [loading] flag. *)
Definition sets_loading (t : list Effect) : bool :=
  existsb (fun e => match e with ESetLoading _ => true | _ => false end) t.

(** ** Descriptions used in the statements *)

(** The user turn a call appends. *)
Definition user_turn (r : State) (w : World) (now : string) : Message :=
  {| id := messageId (st w); role := user;
     text := JS.trim (input r); time := now |}.

(** The live state when an accepted call gives control back. *)
Definition state_at_await (r : State) (w : World) (now : string) : State :=
  let p := st w in
  {| messages := messages p ++ [user_turn r w now];
     input := "";
     loading := true;
     showCrisisModal :=
       if containsCrisis (JS.trim (input r)) then true else showCrisisModal p;
     userName := userName p;
     consentChecked := consentChecked p;
     settingsOpen := settingsOpen p;
     tone := tone p;
     error := None;
     messageId := (messageId p + 1)%Z |}.

Definition trace_to_await (r : State) (w : World) (now : string)
  : list Effect :=
  [ESetError None; ESetMessages (user_turn r w now); ESetInput ""]
  ++ (if containsCrisis (JS.trim (input r))
      then [ESetShowCrisisModal true] else [])
  ++ [ESetLoading true; EFetch (payload r (JS.trim (input r)))].

(** The assistant turn a settled call appends. *)
Definition assistant_turn (w : World) (t now : string) : Message :=
  {| id := messageId (st w); role := assistant; text := t; time := now |}.

(** The live state after the success branch. *)
Definition state_after_reply (r : State) (data : ResponseData) (w : World)
  (now : string) : State :=
  let p := st w in
  {| messages :=
       messages p ++ [assistant_turn w (reply_or data NO_REPLY_TEXT) now];
     input := input p;
     loading := false;
     showCrisisModal :=
       if is_flagged data && negb (showCrisisModal r) then true
       else showCrisisModal p;
     userName := userName p;
     consentChecked := consentChecked p;
     settingsOpen := settingsOpen p;
     tone := tone p;
     error := error p;
     messageId := (messageId p + 1)%Z |}.

(** The live state after the [catch] branch. *)
Definition state_after_failure (w : World) (now : string) : State :=
  let p := st w in
  {| messages := messages p ++ [assistant_turn w APOLOGY_TEXT now];
     input := input p;
     loading := false;
     showCrisisModal := showCrisisModal p;
     userName := userName p;
     consentChecked := consentChecked p;
     settingsOpen := settingsOpen p;
     tone := tone p;
     error := Some SEND_ERROR;
     messageId := (messageId p + 1)%Z |}.

(** A state in which the user has given consent and typed [v]. *)
Definition ready (now v : string) : State :=
  let p := initialState now in
  {| messages := messages p; input := v; loading := loading p;
     showCrisisModal := showCrisisModal p; userName := userName p;
     consentChecked := true; settingsOpen := settingsOpen p;
     tone := tone p; error := error p; messageId := messageId p |}.

(** The component showing the error of an earlier attempt, with consent
    given and [v] typed. *)
Definition after_error (now v : string) : State :=
  let p := initialState now in
  {| messages := messages p; input := v; loading := loading p;
     showCrisisModal := showCrisisModal p; userName := userName p;
     consentChecked := true; settingsOpen := settingsOpen p;
     tone := tone p; error := Some SEND_ERROR; messageId := messageId p |}.

(** The component with text typed and the consent box not ticked. *)
Definition no_consent (now v : string) : State :=
  let p := initialState now in
  {| messages := messages p; input := v; loading := loading p;
     showCrisisModal := showCrisisModal p; userName := userName p;
     consentChecked := false; settingsOpen := settingsOpen p;
     tone := tone p; error := error p; messageId := messageId p |}.

(** The reply text the specification expects on success. *)
Definition expected_reply (data : ResponseData) : string :=
  match reply data with
  | Some t => if String.eqb t "" then NO_REPLY_TEXT else t
  | None => NO_REPLY_TEXT
  end.

(** The live component after one accepted submit whose request failed. *)
Definition after_one_exchange : World :=
  snd (handleSend (ready "t0" "hello") "t1" FetchRejected "t2"
         (start (ready "t0" "hello"))).

Definition ctrlEnter : KeyboardEvent :=
  {| key := "Enter"; metaKey := false; ctrlKey := true |}.

(** ** Transcript export (lines 125-136) *)

(** The string a role is at run time. *)
Definition role_name (r : Role) : string :=
  match r with
  | system => "system"
  | assistant => "assistant"
  | user => "user"
  end.

(** [String.prototype.toUpperCase] on one code unit: a-z, and the
    Latin-1 small letters U+00E0-U+00FE except the division sign U+00F7,
    move down by 32.  The capitals of U+00B5, U+00DF and U+00FF are not
    single units below 256; the component upper-cases role names only,
    which hold none of them. *)
Definition toUpperUnit (c : ascii) : ascii :=
  let n := nat_of_ascii c in
  if ((97 <=? n) && (n <=? 122))
     || ((224 <=? n) && (n <=? 254) && negb (n =? 247))
  then ascii_of_nat (n - 32)
  else c.

Fixpoint toUpperCase (s : string) : string :=
  match s with
  | EmptyString => EmptyString
  | String c s' => String (toUpperUnit c) (toUpperCase s')
  end.

(** [l.join(sep)] *)
Fixpoint join (sep : string) (l : list string) : string :=
  match l with
  | [] => ""
  | x :: l' =>
      match l' with
      | [] => x
      | _ :: _ => (x ++ sep ++ join sep l')%string
      end
  end.

(** The separator of the blocks: two line feeds. *)
Definition BLANK_LINE : string :=
  String (ascii_of_nat 10) (String (ascii_of_nat 10) "").

Record Download : Type := mkDownload {
  download_name : string;
  download_text : string
}.

Section Transcript.

(** [new Date(t).toLocaleString()] depends on the locale and the time
    zone of the browser; it is a parameter. *)
Variable toLocaleString : string -> string.

(** Line 127: one block of the transcript. *)
Definition transcript_block (m : Message) : string :=
  ("[" ++ toLocaleString (time m) ++ "] "
   ++ toUpperCase (role_name (role m)) ++ ": " ++ text m)%string.

(** Lines 126-128. *)
Definition transcript_text (l : list Message) : string :=
  join BLANK_LINE (map transcript_block l).

(** Lines 125-136: the file offered for download; [r] is the render the
    handler closes over and [now] the result of
    [new Date().toISOString()].  No state setter is called. *)
Definition downloadTranscript (r : State) (now : string) : Download :=
  {| download_name := ("chat-transcript-" ++ now ++ ".txt")%string;
     download_text := transcript_text (messages r) |}.

End Transcript.

(** ** Notions used for whole sessions *)

(** Lines 120: the key combination that submits. *)
Definition is_key_submit (e : KeyboardEvent) : bool :=
  String.eqb (key e) "Enter" && (metaKey e || ctrlKey e).

Definition submits_by_key (e : Event) : bool :=
  match e with
  | KeyDown k _ => is_key_submit k
  | _ => false
  end.

Definition role_eqb (a b : Role) : bool :=
  match a, b with
  | system, system | assistant, assistant | user, user => true
  | _, _ => false
  end.

Definition turns_of (x : Role) (l : list Message) : list Message :=
  filter (fun m => role_eqb (role m) x) l.

(** Whether a payload entry stands for the turn [m] of the log: the
    log's own object for that turn, known by its id, or the bare
    [{ role, text }] literal with the role and the text of [m]. *)
Definition entry_is_turn (m : Message) (e : PayloadEntry) : bool :=
  match e with
  | LogEntry m' => Z.eqb (id m') (id m)
  | RoleText ro t => role_eqb ro (role m) && String.eqb t (text m)
  end.

(** How many entries of a payload stand for the turn [m]. *)
Definition count_turn (m : Message) (l : list PayloadEntry) : nat :=
  List.length (filter (entry_is_turn m) l).

(** The text of the last entry of a request. *)
Definition request_text (p : Payload) : string :=
  entry_text (last (payload_messages p) (RoleText system "")).

(** The ids of a log with [n] turns whose ids are their positions. *)
Definition positions (n : nat) : list Z := map Z.of_nat (seq 0 n).

(** A log of [n] turns, for examples. *)
Definition long_log (n : nat) : list Message :=
  map (fun i => {| id := Z.of_nat i; role := user; text := "hi"; time := "t" |})
      (seq 0 n).

Definition with_messages (l : list Message) (p : State) : State :=
  {| messages := l; input := input p; loading := loading p;
     showCrisisModal := showCrisisModal p; userName := userName p;
     consentChecked := consentChecked p; settingsOpen := settingsOpen p;
     tone := tone p; error := error p; messageId := messageId p |}.

Definition with_modal (b : bool) (p : State) : State :=
  {| messages := messages p; input := input p; loading := loading p;
     showCrisisModal := b; userName := userName p;
     consentChecked := consentChecked p; settingsOpen := settingsOpen p;
     tone := tone p; error := error p; messageId := messageId p |}.

(** What an event can do to the log, the counter, the [loading] flag,
    the waiting calls and the requests sent: nothing, start one call, or
    finish one call. *)
Definition quiet_step (s s' : Session) : Prop :=
  messages (st (live s')) = messages (st (live s))
  /\ messageId (st (live s')) = messageId (st (live s))
  /\ loading (st (live s')) = loading (st (live s))
  /\ inflight s' = inflight s
  /\ requests (trace (live s')) = requests (trace (live s)).

Definition send_step (s s' : Session) : Prop :=
  exists m,
    messages (st (live s')) = messages (st (live s)) ++ [m]
    /\ role m = user
    /\ id m = messageId (st (live s))
    /\ messageId (st (live s')) = (messageId (st (live s)) + 1)%Z
    /\ loading (st (live s')) = true
    /\ inflight s' = inflight s ++ [st (live s)]
    /\ requests (trace (live s'))
       = requests (trace (live s)) ++ [payload (st (live s)) (text m)].

Definition settle_step (s s' : Session) : Prop :=
  exists m n,
    messages (st (live s')) = messages (st (live s)) ++ [m]
    /\ role m = assistant
    /\ id m = messageId (st (live s))
    /\ messageId (st (live s')) = (messageId (st (live s)) + 1)%Z
    /\ loading (st (live s')) = false
    /\ n < List.length (inflight s)
    /\ inflight s' = remove_nth n (inflight s)
    /\ requests (trace (live s')) = requests (trace (live s)).

(** A session in which two calls wait: one started with the Send
    button, one with the key combination while the first was pending. *)
Definition two_waiting : Session :=
  run_events (boot "t0")
    [ChangeConsent true; ChangeInput "first"; ClickSend "t1";
     ChangeInput "second"; KeyDown ctrlEnter "t2"].

(** Whether every unit of a string is white space. *)
Fixpoint all_white (s : string) : bool :=
  match s with
  | EmptyString => true
  | String c s' => JS.isWhiteSpace c && all_white s'
  end.

(** A run of [n] exchanges after consent: type, send, let the request
    fail. *)
Definition exchanges (n : nat) : list Event :=
  ChangeConsent true
  :: List.concat (repeat [ChangeInput "hi"; ClickSend "t";
                     Settle 0 FetchRejected "t"] n).

(** A phrase that does not begin with white space. *)
Definition head_solid (p : string) : bool :=
  match p with
  | EmptyString => false
  | String k _ => negb (JS.isWhiteSpace k)
  end.

(** A phrase that is empty or does not end with white space. *)
Fixpoint ends_solid (p : string) : bool :=
  match p with
  | EmptyString => true
  | String k p' =>
      match p' with
      | EmptyString => negb (JS.isWhiteSpace k)
      | String _ _ => ends_solid p'
      end
  end.

(* ================================================================= *)
(** * Properties *)

(** ** Facts about the built-ins *)

Example trim_both_ends : JS.trim "  I feel  anxious 	" = "I feel  anxious".
Proof. reflexivity. Qed.

Example trim_blank : JS.trim "   " = "".
Proof. reflexivity. Qed.

Example toLowerCase_mixed : JS.toLowerCase "Kill MySelf 42!" = "kill myself 42!".
Proof. reflexivity. Qed.

Example toLowerUnit_latin1 :
  JS.toLowerUnit (ascii_of_nat 201) = ascii_of_nat 233
  /\ JS.toLowerUnit (ascii_of_nat 215) = ascii_of_nat 215
  /\ JS.toLowerUnit (ascii_of_nat 223) = ascii_of_nat 223.
Proof. repeat split. Qed.

Example includes_inside : JS.includes "nonviolently" "violent" = true.
Proof. reflexivity. Qed.

Example includes_empty : JS.includes "" "" = true.
Proof. reflexivity. Qed.

Example slice_last_short : JS.slice_last 20 [1; 2; 3] = [1; 2; 3].
Proof. reflexivity. Qed.

Example slice_last_long : JS.slice_last 2 [1; 2; 3] = [2; 3].
Proof. reflexivity. Qed.

Example containsCrisis_mixed_case :
  containsCrisis "I Want To DIE tonight" = true.
Proof. reflexivity. Qed.

Example containsCrisis_plain :
  containsCrisis "I feel anxious today" = false.
Proof. reflexivity. Qed.

Lemma nat_of_ascii_lt (c : ascii) : nat_of_ascii c < 256.
Proof.
  destruct c as [[] [] [] [] [] [] [] []]; vm_compute; lia.
Qed.

Lemma nat_of_ascii_inj (a b : ascii) :
  nat_of_ascii a = nat_of_ascii b -> a = b.
Proof.
  intros H. rewrite <- (ascii_nat_embedding a), <- (ascii_nat_embedding b).
  now rewrite H.
Qed.

Lemma toLowerUnit_capital (c : ascii) :
  is_capital c -> nat_of_ascii (JS.toLowerUnit c) = nat_of_ascii c + 32.
Proof.
  unfold is_capital, JS.toLowerUnit. cbv zeta. intros H.
  pose proof (nat_of_ascii_lt c) as Hlt.
  assert (Hc : ((65 <=? nat_of_ascii c) && (nat_of_ascii c <=? 90)
                || (192 <=? nat_of_ascii c) && (nat_of_ascii c <=? 222)
                   && negb (nat_of_ascii c =? 215)) = true).
  { destruct H as [H | [H Hne]].
    - apply orb_true_iff. left. apply andb_true_iff.
      split; apply Nat.leb_le; lia.
    - apply orb_true_iff. right. rewrite !andb_true_iff. repeat split.
      + apply Nat.leb_le; lia.
      + apply Nat.leb_le; lia.
      + apply negb_true_iff, Nat.eqb_neq; exact Hne. }
  rewrite Hc. apply nat_ascii_embedding. destruct H as [H | [H _]]; lia.
Qed.

Lemma toLowerUnit_other (c : ascii) :
  ~ is_capital c -> JS.toLowerUnit c = c.
Proof.
  unfold is_capital, JS.toLowerUnit. cbv zeta. intros H.
  destruct ((65 <=? nat_of_ascii c) && (nat_of_ascii c <=? 90)
            || (192 <=? nat_of_ascii c) && (nat_of_ascii c <=? 222)
               && negb (nat_of_ascii c =? 215)) eqn:E; [| reflexivity].
  exfalso. apply H. apply orb_true_iff in E. destruct E as [E | E].
  - apply andb_true_iff in E. destruct E as [E1 E2].
    apply Nat.leb_le in E1, E2. left; lia.
  - rewrite !andb_true_iff in E. destruct E as [[E1 E2] E3].
    apply Nat.leb_le in E1, E2. apply negb_true_iff, Nat.eqb_neq in E3.
    right; lia.
Qed.

Lemma is_capital_dec (c : ascii) : is_capital c \/ ~ is_capital c.
Proof. unfold is_capital. cbv zeta. lia. Qed.

Lemma capital_plus_32_not_capital (a b : ascii) :
  is_capital a -> nat_of_ascii b = nat_of_ascii a + 32 -> ~ is_capital b.
Proof. unfold is_capital. cbv zeta. lia. Qed.

(** Two units agree up to case exactly when lowering makes them equal. *)
Lemma same_ignoring_case_lower (a b : ascii) :
  same_ignoring_case a b <-> JS.toLowerUnit a = JS.toLowerUnit b.
Proof.
  split.
  - intros [-> | [[Ha Hb] | [Hb Ha]]]; [reflexivity | |].
    + apply nat_of_ascii_inj. rewrite (toLowerUnit_capital a Ha).
      rewrite (toLowerUnit_other b); [exact (eq_sym Hb) |].
      exact (capital_plus_32_not_capital a b Ha Hb).
    + apply nat_of_ascii_inj. rewrite (toLowerUnit_capital b Hb).
      rewrite (toLowerUnit_other a); [exact Ha |].
      exact (capital_plus_32_not_capital b a Hb Ha).
  - intros H. unfold same_ignoring_case.
    destruct (is_capital_dec a) as [Ha | Ha], (is_capital_dec b) as [Hb | Hb].
    + left. apply nat_of_ascii_inj.
      apply (f_equal nat_of_ascii) in H.
      rewrite (toLowerUnit_capital a Ha), (toLowerUnit_capital b Hb) in H. lia.
    + right; left. split; [exact Ha |].
      apply (f_equal nat_of_ascii) in H.
      rewrite (toLowerUnit_capital a Ha), (toLowerUnit_other b Hb) in H.
      now symmetry.
    + right; right. split; [exact Hb |].
      apply (f_equal nat_of_ascii) in H.
      rewrite (toLowerUnit_capital b Hb), (toLowerUnit_other a Ha) in H.
      exact H.
    + left. now rewrite (toLowerUnit_other a Ha), (toLowerUnit_other b Hb) in H.
Qed.

Lemma append_assoc (a b c : string) :
  ((a ++ b) ++ c = a ++ (b ++ c))%string.
Proof. induction a as [| x a IH]; simpl; [reflexivity | now rewrite IH]. Qed.

Lemma toLowerCase_append (a b : string) :
  JS.toLowerCase (a ++ b) = (JS.toLowerCase a ++ JS.toLowerCase b)%string.
Proof. induction a as [| x a IH]; simpl; [reflexivity | now rewrite IH]. Qed.

(** A split of the lowered text comes from a split of the text. *)
Lemma toLowerCase_split (t x y : string) :
  JS.toLowerCase t = (x ++ y)%string ->
  exists a b, t = (a ++ b)%string
              /\ JS.toLowerCase a = x /\ JS.toLowerCase b = y.
Proof.
  revert t. induction x as [| c x IH]; intros t H.
  - exists ""%string, t. simpl in *. auto.
  - destruct t as [| d t]; simpl in H; [discriminate |].
    injection H as Hc Ht. destruct (IH t Ht) as (a & b & -> & Ha & Hb).
    exists (String d a), b. simpl. now rewrite Hc, Ha, Hb.
Qed.

Lemma matches_ignoring_case_lower (s t : string) :
  matches_ignoring_case s t <-> JS.toLowerCase s = JS.toLowerCase t.
Proof.
  split.
  - induction 1 as [| a b s t Hab _ IH]; simpl; [reflexivity |].
    apply same_ignoring_case_lower in Hab. now rewrite Hab, IH.
  - revert t. induction s as [| a s IH]; intros [| b t] H; simpl in H;
      try discriminate.
    + constructor.
    + injection H as Hab Hst. constructor.
      * now apply same_ignoring_case_lower.
      * now apply IH.
Qed.

Lemma startsWith_spec (s p : string) :
  JS.startsWith s p = true <-> exists post, s = (p ++ post)%string.
Proof.
  revert s. induction p as [| b p IH]; intros s; simpl.
  - split; [intros _; now exists s | reflexivity].
  - destruct s as [| a s].
    + split; [discriminate | intros [post H]; discriminate].
    + rewrite andb_true_iff, Ascii.eqb_eq, IH. split.
      * intros [-> [post ->]]. now exists post.
      * intros [post H]. injection H as -> ->. split; [reflexivity | now exists post].
Qed.

Lemma includes_spec (s p : string) :
  JS.includes s p = true <->
  exists pre post, s = (pre ++ p ++ post)%string.
Proof.
  induction s as [| a s IH].
  - simpl. rewrite orb_false_r, startsWith_spec. split.
    + intros [post H]. now exists ""%string, post.
    + intros (pre & post & H). destruct pre; [now exists post | discriminate].
  - cbn [JS.includes]. rewrite orb_true_iff, startsWith_spec, IH. split.
    + intros [[post H] | (pre & post & H)].
      * now exists ""%string, post.
      * exists (String a pre), post. simpl. now rewrite H.
    + intros (pre & post & H). destruct pre as [| c pre].
      * left. now exists post.
      * right. simpl in H. injection H as _ H. now exists pre, post.
Qed.

(** Every keyword of the component is already in lower case. *)
Lemma CRISIS_KEYWORDS_lower (kw : string) :
  In kw CRISIS_KEYWORDS -> JS.toLowerCase kw = kw.
Proof.
  unfold CRISIS_KEYWORDS. simpl.
  intros H. repeat (destruct H as [<- | H]; [reflexivity |]). contradiction.
Qed.

(** The component's keyword table is the specification's list. *)
Lemma CRISIS_KEYWORDS_phrases : CRISIS_KEYWORDS = crisis_phrases.
Proof. reflexivity. Qed.

(** The early return on falsy text does not change the answer of the
    keyword scan. *)
Lemma containsCrisis_scan (t : string) :
  containsCrisis t
  = JS.some (fun kw => JS.includes (JS.toLowerCase t) kw) CRISIS_KEYWORDS.
Proof. destruct t; reflexivity. Qed.

Lemma containsCrisis_iff (t : string) :
  containsCrisis t = true <-> mentions_crisis t.
Proof.
  rewrite containsCrisis_scan. unfold JS.some, mentions_crisis.
  rewrite existsb_exists, <- CRISIS_KEYWORDS_phrases. split.
  - intros (kw & Hin & Hinc). exists kw. split; [exact Hin |].
    apply includes_spec in Hinc. destruct Hinc as (x & y & Hxy).
    destruct (toLowerCase_split _ _ _ Hxy) as (pre & rest & -> & _ & Hrest).
    destruct (toLowerCase_split _ _ _ Hrest) as (mid & post & -> & Hmid & _).
    exists pre, mid, post. split; [reflexivity |].
    apply matches_ignoring_case_lower.
    now rewrite Hmid, (CRISIS_KEYWORDS_lower kw Hin).
  - intros (kw & Hin & pre & mid & post & -> & Hm). exists kw.
    split; [exact Hin |]. apply includes_spec.
    apply matches_ignoring_case_lower in Hm.
    rewrite (CRISIS_KEYWORDS_lower kw Hin) in Hm.
    exists (JS.toLowerCase pre), (JS.toLowerCase post).
    now rewrite !toLowerCase_append, Hm.
Qed.

(** C2.  The classifier answers [true] on every text that contains one of
    the eight crisis phrases as a substring in any mix of capital and
    small letters, [false] on every text that contains none of them, and
    [false] on the empty text. *)
Theorem containsCrisis_spec (t : string) :
  (mentions_crisis t -> containsCrisis t = true)
  /\ (~ mentions_crisis t -> containsCrisis t = false)
  /\ containsCrisis "" = false.
Proof.
  split; [| split].
  - apply containsCrisis_iff.
  - intros H. destruct (containsCrisis t) eqn:E; [| reflexivity].
    exfalso. apply H. now apply containsCrisis_iff.
  - reflexivity.
Qed.

Lemma containsCrisis_spec_witness :
  containsCrisis "I want to END MY LIFE" = true
  /\ containsCrisis "I feel anxious today" = false.
Proof.
  split.
  - apply (proj1 (containsCrisis_spec "I want to END MY LIFE")).
    exists "end my life". split; [simpl; tauto |].
    exists "I want to ", "END MY LIFE", "". split; [reflexivity |].
    apply matches_ignoring_case_lower. reflexivity.
  - apply (proj1 (proj2 (containsCrisis_spec "I feel anxious today"))).
    intros H. apply containsCrisis_iff in H. vm_compute in H. discriminate H.
Defined.

(** ** What one call of the handler does *)

Lemma handleSend_sync_accepted (r : State) (now : string) (w : World) :
  passes_validation r = true ->
  handleSend_sync r now w
  = (Normal (Suspended (JS.trim (input r))),
     {| st := state_at_await r w now;
        trace := trace w ++ trace_to_await r w now |}).
Proof.
  unfold passes_validation. intros H. apply andb_true_iff in H.
  destruct H as [Ht Hc].
  unfold handleSend_sync, trace_to_await, state_at_await, user_turn.
  rewrite Ht, Hc. cbn [negb].
  destruct (containsCrisis (JS.trim (input r)));
    cbv [bind ret when effect setError addMessage setInput setShowCrisisModal
         setLoading fetch st trace messages input loading showCrisisModal
         userName consentChecked settingsOpen tone error messageId];
    destruct w as [p t]; cbn [st trace];
    rewrite <- !app_assoc; reflexivity.
Qed.

Lemma handleSend_sync_empty (r : State) (now : string) (w : World) :
  JS.trim (input r) = "" ->
  handleSend_sync r now w = (Normal Returned, w).
Proof. unfold handleSend_sync. intros ->. reflexivity. Qed.

Lemma handleSend_sync_no_consent (r : State) (now : string) (w : World) :
  JS.truthy (JS.trim (input r)) = true ->
  consentChecked r = false ->
  handleSend_sync r now w
  = (Normal Returned,
     {| st :=
          {| messages := messages (st w); input := input (st w);
             loading := loading (st w);
             showCrisisModal := showCrisisModal (st w);
             userName := userName (st w);
             consentChecked := consentChecked (st w);
             settingsOpen := settingsOpen (st w); tone := tone (st w);
             error := Some CONSENT_ERROR; messageId := messageId (st w) |};
        trace := trace w ++ [ESetError None; ESetError (Some CONSENT_ERROR)] |}).
Proof.
  intros Ht Hc. unfold handleSend_sync. rewrite Ht, Hc. cbn [negb].
  destruct w as [p t].
  cbv [bind ret effect setError st trace messages input loading
       showCrisisModal userName consentChecked settingsOpen tone error
       messageId].
  rewrite <- !app_assoc. reflexivity.
Qed.

Lemma handleSend_resume_success
  (r : State) (o : FetchOutcome) (data : ResponseData) (now : string)
  (w : World) :
  transport_result o = Some data ->
  handleSend_resume r o now w
  = (Normal tt,
     {| st := state_after_reply r data w now;
        trace :=
          trace w
          ++ (if is_flagged data && negb (showCrisisModal r)
              then [ESetShowCrisisModal true] else [])
          ++ [ESetMessages
                (assistant_turn w (reply_or data NO_REPLY_TEXT) now);
              ESetLoading false] |}).
Proof.
  destruct o as [| [code b]]; cbn [transport_result]; [discriminate |].
  destruct (ok {| status := code; body := b |}) eqn:Hok; [| discriminate].
  cbn [body]. destruct b as [| d]; [discriminate |].
  intros H. injection H as ->.
  unfold handleSend_resume, handleSend_try, try_catch_finally, await_fetch,
    await_json, state_after_reply, assistant_turn.
  cbv [bind ret]. rewrite Hok. cbn [negb body].
  destruct w as [p t].
  destruct (is_flagged data && negb (showCrisisModal r));
    cbv [when ret effect setShowCrisisModal addMessage setLoading st trace
         messages input loading showCrisisModal userName consentChecked
         settingsOpen tone error messageId];
    rewrite <- ?app_assoc; reflexivity.
Qed.

Lemma handleSend_resume_failure
  (r : State) (o : FetchOutcome) (now : string) (w : World) :
  transport_result o = None ->
  handleSend_resume r o now w
  = (Normal tt,
     {| st := state_after_failure w now;
        trace :=
          trace w
          ++ [EConsoleError; ESetError (Some SEND_ERROR);
              ESetMessages (assistant_turn w APOLOGY_TEXT now);
              ESetLoading false] |}).
Proof.
  intros H.
  assert (Hthrow : exists e, handleSend_try r o now w = (Throw e, w)).
  { unfold handleSend_try, await_fetch, await_json.
    destruct o as [| [code b]]; cbn [transport_result] in H.
    - exists NetworkFailure. reflexivity.
    - cbv [bind ret throw].
      destruct (ok {| status := code; body := b |}); cbn [negb body] in *.
      + destruct b; [| discriminate]. exists ParseFailure. reflexivity.
      + exists (ServerError code). reflexivity. }
  destruct Hthrow as [e He].
  unfold handleSend_resume, try_catch_finally. rewrite He.
  unfold handleSend_catch, state_after_failure, assistant_turn.
  destruct w as [p t].
  cbv [bind ret effect console_error setError addMessage setLoading st trace
       messages input loading showCrisisModal userName consentChecked
       settingsOpen tone error messageId].
  rewrite <- !app_assoc. reflexivity.
Qed.


Lemma handleSend_accepted
  (r : State) (now1 : string) (o : FetchOutcome) (now2 : string) (w : World) :
  passes_validation r = true ->
  handleSend r now1 o now2 w
  = handleSend_resume r o now2
      {| st := state_at_await r w now1;
         trace := trace w ++ trace_to_await r w now1 |}.
Proof.
  intros H. unfold handleSend, bind.
  now rewrite (handleSend_sync_accepted r now1 w H).
Qed.

Lemma handleSend_rejected
  (r : State) (now1 : string) (o : FetchOutcome) (now2 : string) (w : World) :
  passes_validation r = false ->
  handleSend r now1 o now2 w
  = (Normal tt, snd (handleSend_sync r now1 w))
  /\ fst (handleSend_sync r now1 w) = Normal Returned.
Proof.
  unfold passes_validation. intros H. unfold handleSend, bind.
  destruct (JS.truthy (JS.trim (input r))) eqn:Ht.
  - cbn [andb] in H.
    rewrite (handleSend_sync_no_consent r now1 w Ht H). split; reflexivity.
  - assert (He : JS.trim (input r) = "").
    { destruct (JS.trim (input r)); [reflexivity | discriminate]. }
    rewrite (handleSend_sync_empty r now1 w He). split; reflexivity.
Qed.

Lemma requests_app (t1 t2 : list Effect) :
  requests (t1 ++ t2) = requests t1 ++ requests t2.
Proof.
  induction t1 as [| e t1 IH]; [reflexivity |].
  destruct e; cbn [app requests]; rewrite ?IH; reflexivity.
Qed.

(** C1.  When the trimmed text passes validation and the local classifier
    flags it, [setShowCrisisModal(true)] is called before the request
    is sent, the flag is set when the handler gives control back, and it
    is set when the call has finished, whatever the outcome of the
    request. *)
Theorem crisis_flag_set_before_request
  (r : State) (now1 : string) (w : World) :
  passes_validation r = true ->
  containsCrisis (JS.trim (input r)) = true ->
  (exists t1 t2 p,
      trace (snd (handleSend_sync r now1 w))
      = trace w ++ t1 ++ [ESetShowCrisisModal true] ++ t2 ++ [EFetch p]
      /\ requests (t1 ++ [ESetShowCrisisModal true] ++ t2) = [])
  /\ showCrisisModal (st (snd (handleSend_sync r now1 w))) = true
  /\ forall o now2,
       showCrisisModal (st (snd (handleSend r now1 o now2 w))) = true.
Proof.
  intros Hv Hc. split; [| split].
  - rewrite (handleSend_sync_accepted r now1 w Hv). cbn [snd trace].
    unfold trace_to_await. rewrite Hc.
    exists [ESetError None; ESetMessages (user_turn r w now1); ESetInput ""],
      [ESetLoading true], (payload r (JS.trim (input r))).
    split; reflexivity.
  - rewrite (handleSend_sync_accepted r now1 w Hv). cbn.
    now rewrite Hc.
  - intros o now2. rewrite (handleSend_accepted r now1 o now2 w Hv).
    destruct (transport_result o) as [data |] eqn:Ho.
    + rewrite (handleSend_resume_success r o data now2 _ Ho). cbn.
      rewrite Hc. now destruct (is_flagged data && negb (showCrisisModal r)).
    + rewrite (handleSend_resume_failure r o now2 _ Ho). cbn.
      now rewrite Hc.
Qed.

Lemma crisis_flag_set_before_request_witness :
  showCrisisModal
    (st (snd (handleSend_sync (ready "t0" "  I want to end my life ") "t1"
                (start (ready "t0" "  I want to end my life ")))))
  = true
  /\ showCrisisModal
       (st (snd (handleSend (ready "t0" "  I want to end my life ") "t1"
                   FetchRejected "t2"
                   (start (ready "t0" "  I want to end my life ")))))
     = true.
Proof.
  destruct (crisis_flag_set_before_request
              (ready "t0" "  I want to end my life ") "t1"
              (start (ready "t0" "  I want to end my life "))
              eq_refl eq_refl) as (_ & Hsync & Hend).
  split; [exact Hsync | exact (Hend FetchRejected "t2")].
Defined.

(** C10.  When the input trims to the empty string the handler returns at
    once and nothing changes: the live state is the same, [error]
    included, and no effect is recorded, so no turn, no [loading], no
    request. *)
Theorem empty_submit_changes_nothing
  (r : State) (now1 : string) (o : FetchOutcome) (now2 : string) (w : World) :
  JS.trim (input r) = "" ->
  handleSend_sync r now1 w = (Normal Returned, w)
  /\ handleSend r now1 o now2 w = (Normal tt, w).
Proof.
  intros H. split.
  - exact (handleSend_sync_empty r now1 w H).
  - unfold handleSend, bind.
    now rewrite (handleSend_sync_empty r now1 w H).
Qed.

Lemma empty_submit_changes_nothing_witness :
  handleSend (after_error "t0" "   ") "t1" FetchRejected "t2"
    (start (after_error "t0" "   "))
  = (Normal tt, start (after_error "t0" "   ")).
Proof.
  apply (empty_submit_changes_nothing (after_error "t0" "   ") "t1"
           FetchRejected "t2" (start (after_error "t0" "   "))).
  reflexivity.
Defined.

(** C3, as the claim states it, fails: a submit of empty text with
    consent given is rejected and [error] is not set. *)
Lemma rejected_submit_error_not_always_set :
  ~ (forall (r : State) (now : string) (w : World),
        passes_validation r = false ->
        (exists msg, error (st (snd (handleSend_sync r now w))) = Some msg)
        /\ messages (st (snd (handleSend_sync r now w))) = messages (st w)
        /\ sets_loading (trace (snd (handleSend_sync r now w))) = false
        /\ requests (trace (snd (handleSend_sync r now w))) = []).
Proof.
  intros H.
  destruct (H (ready "t0" "") "t1" (start (ready "t0" "")) eq_refl)
    as [[msg Hmsg] _].
  vm_compute in Hmsg. discriminate Hmsg.
Qed.

(** C3, amended.  A submit that is rejected in validation returns without
    suspending, appends no turn, does not touch [loading] and sends no
    request.  When the input is not empty after trimming and consent is
    missing, [error] becomes the consent message; when the input trims
    to the empty string, [error] stays as it was. *)
Theorem rejected_submit_effects
  (r : State) (now : string) (w : World) :
  passes_validation r = false ->
  fst (handleSend_sync r now w) = Normal Returned
  /\ messages (st (snd (handleSend_sync r now w))) = messages (st w)
  /\ loading (st (snd (handleSend_sync r now w))) = loading (st w)
  /\ (exists t, trace (snd (handleSend_sync r now w)) = trace w ++ t
                /\ sets_loading t = false /\ requests t = [])
  /\ error (st (snd (handleSend_sync r now w)))
     = (if JS.truthy (JS.trim (input r)) then Some CONSENT_ERROR
        else error (st w)).
Proof.
  unfold passes_validation. intros H.
  destruct (JS.truthy (JS.trim (input r))) eqn:Ht.
  - cbn [andb] in H. rewrite (handleSend_sync_no_consent r now w Ht H).
    cbn. repeat split.
    exists [ESetError None; ESetError (Some CONSENT_ERROR)]. now repeat split.
  - assert (He : JS.trim (input r) = "").
    { destruct (JS.trim (input r)); [reflexivity | discriminate]. }
    rewrite (handleSend_sync_empty r now w He). cbn. repeat split.
    exists []. rewrite app_nil_r. now repeat split.
Qed.

Lemma rejected_submit_effects_witness :
  error (st (snd (handleSend_sync (no_consent "t0" "hello") "t1"
                    (start (no_consent "t0" "hello")))))
  = Some CONSENT_ERROR
  /\ messages (st (snd (handleSend_sync (no_consent "t0" "hello") "t1"
                         (start (no_consent "t0" "hello")))))
     = messages (initialState "t0").
Proof.
  destruct (rejected_submit_effects (no_consent "t0" "hello") "t1"
              (start (no_consent "t0" "hello")) eq_refl)
    as (_ & Hm & _ & _ & He).
  split; [exact He | exact Hm].
Defined.

Lemma reply_or_expected (data : ResponseData) :
  reply_or data NO_REPLY_TEXT = expected_reply data.
Proof.
  unfold reply_or, expected_reply.
  destruct (reply data) as [[| c t] |]; reflexivity.
Qed.

(** C4.  A submit that passes validation appends exactly two turns to
    the live log: the user turn with the trimmed input, then one
    assistant turn.  The assistant turn carries the reply when the
    transport call succeeds (the fixed no-reply text when the reply is
    missing or empty) and the apology when it fails. *)
Theorem accepted_submit_appends_two_turns
  (r : State) (now1 : string) (o : FetchOutcome) (now2 : string) (w : World) :
  passes_validation r = true ->
  messages (st (snd (handleSend r now1 o now2 w)))
  = messages (st w)
    ++ [ {| id := messageId (st w); role := user;
            text := JS.trim (input r); time := now1 |};
         {| id := (messageId (st w) + 1)%Z; role := assistant;
            text := match transport_result o with
                    | Some data => expected_reply data
                    | None => APOLOGY_TEXT
                    end;
            time := now2 |} ]
  /\ List.length (messages (st (snd (handleSend r now1 o now2 w))))
     = List.length (messages (st w)) + 2.
Proof.
  intros Hv.
  assert (Hm : messages (st (snd (handleSend r now1 o now2 w)))
               = messages (st w)
                 ++ [ {| id := messageId (st w); role := user;
                         text := JS.trim (input r); time := now1 |};
                      {| id := (messageId (st w) + 1)%Z; role := assistant;
                         text := match transport_result o with
                                 | Some data => expected_reply data
                                 | None => APOLOGY_TEXT
                                 end;
                         time := now2 |} ]).
  { rewrite (handleSend_accepted r now1 o now2 w Hv).
    destruct (transport_result o) as [data |] eqn:Ho.
    - rewrite (handleSend_resume_success r o data now2 _ Ho).
      cbn. rewrite <- app_assoc, reply_or_expected. reflexivity.
    - rewrite (handleSend_resume_failure r o now2 _ Ho).
      cbn. rewrite <- app_assoc. reflexivity. }
  split; [exact Hm |]. rewrite Hm, length_app. reflexivity.
Qed.

Lemma accepted_submit_appends_two_turns_witness :
  List.length
    (messages
       (st (snd (handleSend (ready "t0" " I feel anxious today ") "t1"
                   (FetchResolved
                      {| status := 200;
                         body := BodyJson
                                   {| reply := Some "Let's talk about that.";
                                      flagged := None |} |})
                   "t2"
                   (start (ready "t0" " I feel anxious today "))))))
  = 4.
Proof.
  apply (accepted_submit_appends_two_turns
           (ready "t0" " I feel anxious today ") "t1"
           (FetchResolved
              {| status := 200;
                 body := BodyJson {| reply := Some "Let's talk about that.";
                                     flagged := None |} |})
           "t2" (start (ready "t0" " I feel anxious today "))).
  reflexivity.
Defined.



(** ** The payload window *)

Lemma slice_last_snoc {A : Type} (n : nat) (l : list A) (x : A) :
  JS.slice_last (S n) (l ++ [x]) = JS.slice_last n l ++ [x].
Proof.
  unfold JS.slice_last. rewrite length_app, skipn_app. cbn [List.length].
  replace (List.length l + 1 - S n) with (List.length l - n) by lia.
  replace (List.length l - n - List.length l) with 0 by lia.
  reflexivity.
Qed.

Lemma slice_last_length {A : Type} (n : nat) (l : list A) :
  List.length (JS.slice_last n l) <= n.
Proof. unfold JS.slice_last. rewrite length_skipn. lia. Qed.

Lemma slice_last_suffix {A : Type} (n : nat) (l : list A) :
  exists dropped, l = dropped ++ JS.slice_last n l.
Proof.
  exists (firstn (List.length l - n) l). unfold JS.slice_last.
  now rewrite firstn_skipn.
Qed.

Lemma Forall_slice_last {A : Type} (P : A -> Prop) (n : nat) (l : list A) :
  Forall P l -> Forall P (JS.slice_last n l).
Proof.
  intros H. destruct (slice_last_suffix n l) as [d Hd].
  rewrite Hd in H. now apply Forall_app in H.
Qed.

Lemma payload_messages_split (r : State) (userText : string) :
  payload_messages (payload r userText)
  = JS.slice_last 19 (map LogEntry (messages r)) ++ [RoleText user userText].
Proof. unfold payload. cbn [payload_messages]. apply slice_last_snoc. Qed.

Lemma log_entries_are_log (l : list Message) :
  Forall (fun e => exists m, e = LogEntry m) (map LogEntry l).
Proof. apply Forall_map, Forall_forall. intros m _. now exists m. Qed.

(** No statement that every entry has the two fields [role] and [text]
    only can hold: an entry taken from the log keeps its [id] and
    [time]. *)
Lemma payload_entries_not_only_role_text :
  ~ (forall (r : State) (userText : string),
        Forall (fun e => entry_keys e = ["role"; "text"])
               (payload_messages (payload r userText))).
Proof.
  intros H. pose proof (H (initialState "t0") "hello") as HF.
  inversion HF as [| e l He _ Heq]. discriminate He.
Qed.

(** What the payload does carry.  Every entry has a role and a text.
    The new user turn has these two fields only; an entry taken from
    the log is the log's own [Message], with [id], [role], [text] and
    [time].  The tone is under [settings], the user name under
    [metadata]. *)
Lemma payload_entries_shape (r : State) (userText : string) :
  Forall (fun e =>
            In "role" (entry_keys e) /\ In "text" (entry_keys e)
            /\ ((e = RoleText user userText
                 /\ entry_keys e = ["role"; "text"])
                \/ (exists m, In m (messages r) /\ e = LogEntry m
                              /\ entry_keys e = ["id"; "role"; "text"; "time"])))
         (payload_messages (payload r userText))
  /\ settings_tone (payload_settings (payload r userText)) = tone r
  /\ metadata_userName (payload_metadata (payload r userText)) = userName r.
Proof.
  split; [| split; reflexivity].
  unfold payload. cbn [payload_messages].
  apply Forall_slice_last, Forall_app. split.
  - apply Forall_map, Forall_forall. intros m Hm. cbn.
    split; [tauto |]. split; [tauto |]. right. now exists m.
  - constructor; [| constructor]. cbn.
    split; [tauto |]. split; [tauto |]. now left.
Qed.

(** C7.  The claim asks for entries with a role and a text only.  On the
    first submit of a session the handler sends one request whose two
    entries from the log carry [id], [role], [text] and [time]; only the
    new user turn has the two fields.  The tone and the user name are
    attached as the claim says. *)
Theorem first_request_keeps_id_and_time :
  map (fun p => map entry_keys (payload_messages p))
      (requests
         (trace (snd (handleSend_sync (ready "t0" "hello") "t1"
                        (start (ready "t0" "hello"))))))
  = [ [ ["id"; "role"; "text"; "time"];
        ["id"; "role"; "text"; "time"];
        ["role"; "text"] ] ]
  /\ map (fun p => (settings_tone (payload_settings p),
                    metadata_userName (payload_metadata p)))
         (requests
            (trace (snd (handleSend_sync (ready "t0" "hello") "t1"
                           (start (ready "t0" "hello"))))))
     = [ ("compassionate", "") ].
Proof. vm_compute. split; reflexivity. Qed.

(** ** Clear and the seed *)

(** C9, as the claim states it, fails: after one exchange the Clear
    button leaves four turns in the log and the counter at 4. *)
Lemma clear_does_not_reseed :
  ~ (forall w : World,
        map role (messages (st (snd (clearButtonClick w))))
        = [system; assistant]
        /\ messageId (st (snd (clearButtonClick w))) = 2%Z).
Proof.
  intros H. destruct (H after_one_exchange) as [Hr _].
  vm_compute in Hr. discriminate Hr.
Qed.

(** C9, amended.  The Clear button empties the input buffer and changes
    nothing else: the log and the id counter stay as they are.  The
    two-turn seed (a system instructions turn with id 0, then an
    assistant greeting turn with id 1) and the counter value 2 are the
    initial state of the component. *)
Theorem clear_only_empties_input :
  (forall w : World,
      messages (st (snd (clearButtonClick w))) = messages (st w)
      /\ messageId (st (snd (clearButtonClick w))) = messageId (st w)
      /\ input (st (snd (clearButtonClick w))) = ""
      /\ loading (st (snd (clearButtonClick w))) = loading (st w)
      /\ showCrisisModal (st (snd (clearButtonClick w)))
         = showCrisisModal (st w)
      /\ consentChecked (st (snd (clearButtonClick w)))
         = consentChecked (st w)
      /\ settingsOpen (st (snd (clearButtonClick w))) = settingsOpen (st w)
      /\ error (st (snd (clearButtonClick w))) = error (st w)
      /\ tone (st (snd (clearButtonClick w))) = tone (st w)
      /\ userName (st (snd (clearButtonClick w))) = userName (st w))
  /\ (forall now : string,
         map role (messages (initialState now)) = [system; assistant]
         /\ map id (messages (initialState now)) = [0%Z; 1%Z]
         /\ map text (messages (initialState now))
            = [SYSTEM_PROMPT; GREETING]
         /\ messageId (initialState now) = 2%Z).
Proof.
  split.
  - intros w. cbn. repeat split.
  - intros now. cbn. repeat split.
Qed.

(** ** Requests in flight *)

(** The Send button is inert while a request is pending. *)
Lemma sendButtonClick_while_loading (r : State) (now : string) (w : World) :
  loading r = true -> sendButtonClick r now w = (Normal Returned, w).
Proof. unfold sendButtonClick. now intros ->. Qed.

(** The keyboard path runs the handler whatever [loading] is. *)
Lemma handleKeyDown_ignores_loading (r : State) (now : string) (w : World) :
  handleKeyDown r ctrlEnter now w = handleSend_sync r now w.
Proof. reflexivity. Qed.

(** An accepted call sends exactly one request, the payload built from
    the render it closed over, and sends none while it settles. *)
Lemma accepted_submit_sends_one_request
  (r : State) (now1 : string) (o : FetchOutcome) (now2 : string) :
  passes_validation r = true ->
  requests (trace (snd (handleSend r now1 o now2 (start r))))
  = [payload r (JS.trim (input r))].
Proof.
  intros Hv. rewrite (handleSend_accepted r now1 o now2 (start r) Hv).
  destruct (transport_result o) as [data |] eqn:Ho.
  - rewrite (handleSend_resume_success r o data now2 _ Ho).
    cbn [snd trace start]. unfold trace_to_await.
    destruct (containsCrisis (JS.trim (input r)));
      destruct (is_flagged data && negb (showCrisisModal r)); reflexivity.
  - rewrite (handleSend_resume_failure r o now2 _ Ho).
    cbn [snd trace start]. unfold trace_to_await.
    destruct (containsCrisis (JS.trim (input r))); reflexivity.
Qed.

(** C8.  With one request pending, Ctrl+Enter in the text area starts a
    second call of the handler: [loading] is true, two calls wait for
    their requests and two requests have been sent. *)
Theorem keyboard_submit_while_pending :
  loading
    (st (live (run_events (boot "t0")
                 [ChangeConsent true; ChangeInput "first"; ClickSend "t1";
                  ChangeInput "second"])))
  = true
  /\ List.length
       (inflight (run_events (boot "t0")
                    [ChangeConsent true; ChangeInput "first"; ClickSend "t1";
                     ChangeInput "second"; KeyDown ctrlEnter "t2"]))
     = 2
  /\ List.length
       (requests
          (trace (live (run_events (boot "t0")
                          [ChangeConsent true; ChangeInput "first";
                           ClickSend "t1"; ChangeInput "second";
                           KeyDown ctrlEnter "t2"]))))
     = 2
  /\ List.length
       (inflight (run_events (boot "t0")
                    [ChangeConsent true; ChangeInput "first"; ClickSend "t1";
                     ChangeInput "second"; ClickSend "t2"]))
     = 1.
Proof. vm_compute. repeat split. Qed.

(* ================================================================= *)
(** * Further properties of the component *)

(** ** What one event does *)

Lemma requests_snoc_other (t : list Effect) (e : Effect) :
  (forall p, e <> EFetch p) -> requests (t ++ [e]) = requests t.
Proof.
  intros H. rewrite requests_app.
  destruct e; cbn; try apply app_nil_r. now elim (H p).
Qed.

Lemma requests_trace_to_await (r : State) (w : World) (now : string) :
  requests (trace_to_await r w now) = [payload r (JS.trim (input r))].
Proof.
  unfold trace_to_await. now destruct (containsCrisis (JS.trim (input r))).
Qed.

Lemma act_setter_quiet (s : Session) (e : Effect) (f : State -> State) :
  (forall p, e <> EFetch p) ->
  (forall p, messages (f p) = messages p) ->
  (forall p, messageId (f p) = messageId p) ->
  (forall p, loading (f p) = loading p) ->
  quiet_step s (act (effect e f) s).
Proof.
  intros He Hm Hi Hl. unfold quiet_step, act, effect. cbn.
  rewrite Hm, Hi, Hl, (requests_snoc_other _ _ He). repeat split.
Qed.

Lemma quiet_step_refl (s : Session) : quiet_step s s.
Proof. unfold quiet_step. repeat split. Qed.

Lemma launch_returned (s : Session) :
  launch (ret Returned) s = s.
Proof. destruct s. reflexivity. Qed.

Lemma launch_handleSend_sync (s : Session) (now : string) :
  quiet_step s (launch (handleSend_sync (st (live s)) now) s)
  \/ send_step s (launch (handleSend_sync (st (live s)) now) s).
Proof.
  unfold launch.
  destruct (passes_validation (st (live s))) eqn:Hv.
  - right. rewrite (handleSend_sync_accepted _ now (live s) Hv).
    exists (user_turn (st (live s)) (live s) now). cbn [live inflight st trace].
    rewrite requests_app, requests_trace_to_await. cbn. repeat split.
  - left. unfold passes_validation in Hv.
    destruct (JS.truthy (JS.trim (input (st (live s))))) eqn:Ht.
    + cbn [andb] in Hv.
      rewrite (handleSend_sync_no_consent _ now (live s) Ht Hv).
      unfold quiet_step. cbn. rewrite requests_app. cbn.
      rewrite app_nil_r. repeat split.
    + assert (He : JS.trim (input (st (live s))) = "").
      { destruct (JS.trim (input (st (live s))));
          [reflexivity | discriminate]. }
      rewrite (handleSend_sync_empty _ now (live s) He).
      unfold quiet_step. cbn. repeat split.
Qed.

Lemma settle_waiting
  (s : Session) (n : nat) (c : State) (o : FetchOutcome) (now : string) :
  nth_error (inflight s) n = Some c ->
  settle_step s
    {| live := snd (handleSend_resume c o now (live s));
       inflight := remove_nth n (inflight s) |}.
Proof.
  intros Hn.
  assert (Hlt : n < List.length (inflight s)).
  { apply nth_error_Some. rewrite Hn. discriminate. }
  destruct (transport_result o) as [data |] eqn:Ho.
  - rewrite (handleSend_resume_success c o data now (live s) Ho).
    exists (assistant_turn (live s) (reply_or data NO_REPLY_TEXT) now), n.
    cbn. repeat split; try assumption.
    rewrite !requests_app.
    destruct (is_flagged data && negb (showCrisisModal c)); cbn;
      now rewrite app_nil_r.
  - rewrite (handleSend_resume_failure c o now (live s) Ho).
    exists (assistant_turn (live s) APOLOGY_TEXT now), n.
    cbn. repeat split; try assumption.
    rewrite requests_app. cbn. now rewrite app_nil_r.
Qed.

(** Every event leaves the log alone, starts one call or finishes one;
    a call starts only when [loading] is false or the event is the
    submitting key combination. *)
Lemma step_cases_origin (s : Session) (e : Event) :
  quiet_step s (step s e)
  \/ (send_step s (step s e)
      /\ (loading (st (live s)) = false \/ submits_by_key e = true))
  \/ settle_step s (step s e).
Proof.
  destruct e as [v | v | v | b | now | k now | | | n o now]; cbn [step].
  - left. apply act_setter_quiet; intros; (discriminate || reflexivity).
  - left. apply act_setter_quiet; intros; (discriminate || reflexivity).
  - left. apply act_setter_quiet; intros; (discriminate || reflexivity).
  - left. apply act_setter_quiet; intros; (discriminate || reflexivity).
  - unfold sendButtonClick. destruct (loading (st (live s))) eqn:Hl.
    + left. rewrite launch_returned. apply quiet_step_refl.
    + destruct (launch_handleSend_sync s now) as [H | H]; auto.
  - unfold handleKeyDown, submits_by_key, is_key_submit.
    destruct (String.eqb (key k) "Enter" && (metaKey k || ctrlKey k)).
    + destruct (launch_handleSend_sync s now) as [H | H]; auto.
    + left. rewrite launch_returned. apply quiet_step_refl.
  - left. apply act_setter_quiet; intros; (discriminate || reflexivity).
  - left. apply act_setter_quiet; intros; (discriminate || reflexivity).
  - destruct (nth_error (inflight s) n) as [c |] eqn:Hn.
    + right; right. now apply settle_waiting.
    + left. apply quiet_step_refl.
Qed.

Lemma step_cases (s : Session) (e : Event) :
  quiet_step s (step s e)
  \/ send_step s (step s e)
  \/ settle_step s (step s e).
Proof.
  destruct (step_cases_origin s e) as [H | [[H _] | H]]; auto.
Qed.

(** A property kept by every event holds after any run of events. *)
Lemma run_events_invariant (P : Session -> Prop) :
  (forall s e, P s -> P (step s e)) ->
  forall es s, P s -> P (run_events s es).
Proof.
  intros Hstep es. unfold run_events.
  induction es as [| e es IH]; intros s Hs; cbn; [exact Hs |].
  apply IH, Hstep, Hs.
Qed.

(** ** Invariants of a session *)

Lemma positions_snoc (n : nat) :
  positions (S n) = positions n ++ [Z.of_nat n].
Proof. unfold positions. now rewrite seq_S, map_app. Qed.

Lemma positions_from_NoDup (n a : nat) :
  NoDup (map Z.of_nat (seq a n)).
Proof.
  revert a. induction n as [| n IH]; intros a; cbn; constructor.
  - intros H. apply in_map_iff in H. destruct H as (x & Hx & Hin).
    apply in_seq in Hin. lia.
  - apply IH.
Qed.

Lemma ids_kept_by_step (s : Session) (e : Event) :
  map id (messages (st (live s)))
  = positions (List.length (messages (st (live s)))) ->
  messageId (st (live s)) = Z.of_nat (List.length (messages (st (live s)))) ->
  map id (messages (st (live (step s e))))
  = positions (List.length (messages (st (live (step s e)))))
  /\ messageId (st (live (step s e)))
     = Z.of_nat (List.length (messages (st (live (step s e))))).
Proof.
  intros Hids Hnext.
  destruct (step_cases s e)
    as [(Hm & Hi & _) | [(m & Hm & _ & Hid & Hi & _)
                        | (m & n & Hm & _ & Hid & Hi & _)]].
  - now rewrite Hm, Hi.
  - rewrite Hm, Hi, map_app, length_app, Hids. cbn [map List.length].
    rewrite Nat.add_1_r, positions_snoc, Hid, Hnext. split; [reflexivity | lia].
  - rewrite Hm, Hi, map_app, length_app, Hids. cbn [map List.length].
    rewrite Nat.add_1_r, positions_snoc, Hid, Hnext. split; [reflexivity | lia].
Qed.

(** X1.  After any run of events from the first render, the id of every
    turn is its position in the log (0, 1, 2, ...), the counter
    [messageId] is the length of the log, and no two turns share an
    id. *)
Theorem ids_are_positions (now : string) (es : list Event) :
  map id (messages (st (live (run_events (boot now) es))))
  = positions (List.length (messages (st (live (run_events (boot now) es)))))
  /\ messageId (st (live (run_events (boot now) es)))
     = Z.of_nat
         (List.length (messages (st (live (run_events (boot now) es)))))
  /\ NoDup (map id (messages (st (live (run_events (boot now) es))))).
Proof.
  assert (H : map id (messages (st (live (run_events (boot now) es))))
              = positions
                  (List.length
                     (messages (st (live (run_events (boot now) es)))))
              /\ messageId (st (live (run_events (boot now) es)))
                 = Z.of_nat
                     (List.length
                        (messages (st (live (run_events (boot now) es)))))).
  { apply (run_events_invariant
             (fun s =>
                map id (messages (st (live s)))
                = positions (List.length (messages (st (live s))))
                /\ messageId (st (live s))
                   = Z.of_nat (List.length (messages (st (live s)))))).
    - intros s e [H1 H2]. now apply ids_kept_by_step.
    - split; reflexivity. }
  destruct H as [H1 H2]. split; [exact H1 |]. split; [exact H2 |].
  rewrite H1. apply positions_from_NoDup.
Qed.

Lemma run_events_appends (s : Session) (es : list Event) :
  exists added,
    messages (st (live (run_events s es))) = messages (st (live s)) ++ added.
Proof.
  apply (run_events_invariant
           (fun s' => exists added,
                messages (st (live s')) = messages (st (live s)) ++ added)).
  - intros s' e [added Hs'].
    destruct (step_cases s' e)
      as [(Hm & _) | [(m & Hm & _) | (m & n & Hm & _)]].
    + exists added. now rewrite Hm.
    + exists (added ++ [m]). now rewrite Hm, Hs', app_assoc.
    + exists (added ++ [m]). now rewrite Hm, Hs', app_assoc.
  - exists []. now rewrite app_nil_r.
Qed.

(** X2.  The log only grows: after any run of events from any session,
    the log is the earlier log followed by the turns added since.  From
    the first render on, the log therefore starts with the two seed
    turns and is never empty. *)
Theorem log_is_append_only (s : Session) (es : list Event) :
  (exists added,
      messages (st (live (run_events s es)))
      = messages (st (live s)) ++ added)
  /\ forall now,
       exists rest,
         messages (st (live (run_events (boot now) es)))
         = messages (initialState now) ++ rest.
Proof.
  split; [apply run_events_appends |].
  intros now. apply (run_events_appends (boot now)).
Qed.

Lemma remove_nth_length {A : Type} (n : nat) (l : list A) :
  n < List.length l -> S (List.length (remove_nth n l)) = List.length l.
Proof.
  revert n. induction l as [| a l IH]; intros n H; cbn in *; [lia |].
  destruct n as [| n]; [reflexivity |]. cbn. rewrite IH; [reflexivity | lia].
Qed.

Lemma turns_of_snoc (x : Role) (l : list Message) (m : Message) :
  turns_of x (l ++ [m])
  = turns_of x l ++ (if role_eqb (role m) x then [m] else []).
Proof. unfold turns_of. now rewrite filter_app. Qed.

(** X3.  After any run of events from the first render the log holds
    exactly one system turn, and the user turns are matched by the
    assistant turns after the greeting and the calls still waiting:
    user turns + 1 = assistant turns + waiting calls. *)
Theorem turns_balance (now : string) (es : list Event) :
  List.length
    (turns_of system (messages (st (live (run_events (boot now) es)))))
  = 1
  /\ List.length
       (turns_of user (messages (st (live (run_events (boot now) es))))) + 1
     = List.length
         (turns_of assistant
            (messages (st (live (run_events (boot now) es)))))
       + List.length (inflight (run_events (boot now) es)).
Proof.
  apply (run_events_invariant
           (fun s =>
              List.length (turns_of system (messages (st (live s)))) = 1
              /\ List.length (turns_of user (messages (st (live s)))) + 1
                 = List.length (turns_of assistant (messages (st (live s))))
                   + List.length (inflight s))).
  - intros s e [Hs Hb].
    destruct (step_cases s e)
      as [(Hm & _ & _ & Hf & _)
         | [(m & Hm & Hr & _ & _ & _ & Hf & _)
           | (m & n & Hm & Hr & _ & _ & _ & Hn & Hf & _)]].
    + now rewrite Hm, Hf.
    + rewrite Hm, Hf, !turns_of_snoc, Hr, !length_app. cbn. lia.
    + rewrite Hm, Hf, !turns_of_snoc, Hr, !length_app. cbn.
      pose proof (remove_nth_length n (inflight s) Hn). lia.
  - split; reflexivity.
Qed.

Lemma request_text_payload (r : State) (t : string) :
  request_text (payload r t) = t.
Proof.
  unfold request_text. now rewrite payload_messages_split, last_last.
Qed.

(** X4.  After any run of events from the first render, the requests
    sent so far correspond one to one, in order, to the user turns of
    the log: the text a request ends with is the text of its user
    turn.  No user turn is sent twice and none is left unsent. *)
Theorem one_request_per_user_turn (now : string) (es : list Event) :
  map request_text (requests (trace (live (run_events (boot now) es))))
  = map text
      (turns_of user (messages (st (live (run_events (boot now) es))))).
Proof.
  apply (run_events_invariant
           (fun s =>
              map request_text (requests (trace (live s)))
              = map text (turns_of user (messages (st (live s)))))).
  - intros s e H.
    destruct (step_cases s e)
      as [(Hm & _ & _ & _ & Hq)
         | [(m & Hm & Hr & _ & _ & _ & _ & Hq)
           | (m & n & Hm & Hr & _ & _ & _ & _ & _ & Hq)]].
    + now rewrite Hm, Hq.
    + rewrite Hm, Hq, turns_of_snoc, Hr, !map_app, H. cbn.
      now rewrite request_text_payload.
    + rewrite Hm, Hq, turns_of_snoc, Hr. cbn. now rewrite app_nil_r.
  - reflexivity.
Qed.

(** X5.  In a run of events without the submitting key combination, at
    most one call waits for its request at any time, and [loading] is
    true exactly while one does. *)
Theorem button_only_single_flight (now : string) (es : list Event) :
  forallb (fun e => negb (submits_by_key e)) es = true ->
  List.length (inflight (run_events (boot now) es)) <= 1
  /\ (loading (st (live (run_events (boot now) es))) = true
      <-> inflight (run_events (boot now) es) <> []).
Proof.
  assert (H : forall s,
             (List.length (inflight s) <= 1
              /\ (loading (st (live s)) = true <-> inflight s <> [])) ->
             forallb (fun e => negb (submits_by_key e)) es = true ->
             List.length (inflight (run_events s es)) <= 1
             /\ (loading (st (live (run_events s es))) = true
                 <-> inflight (run_events s es) <> [])).
  { unfold run_events. induction es as [| e es IH]; intros s Hs Hes;
      cbn in *; [exact Hs |].
    apply andb_true_iff in Hes. destruct Hes as [He Hes].
    apply negb_true_iff in He. apply IH; [| exact Hes].
    destruct Hs as [Hlen Hiff].
    destruct (step_cases_origin s e)
      as [(_ & _ & Hl & Hf & _)
         | [[(m & _ & _ & _ & _ & Hl & Hf & _) [Hold | Hkey]]
           | (m & n & _ & _ & _ & _ & Hl & Hn & Hf & _)]].
    - now rewrite Hl, Hf.
    - assert (Hnil : inflight s = []).
      { destruct (inflight s) as [| c l]; [reflexivity |].
        assert (Ht : loading (st (live s)) = true)
          by (apply Hiff; discriminate).
        rewrite Ht in Hold. discriminate. }
      rewrite Hl, Hf, Hnil. cbn. split; [lia |]. split; [discriminate | auto].
    - rewrite Hkey in He. discriminate.
    - pose proof (remove_nth_length n (inflight s) Hn) as Hr.
      rewrite Hl, Hf. split; [lia |].
      destruct (remove_nth n (inflight s)) as [| c l] eqn:E.
      + split; [discriminate | intros Hc; now elim Hc].
      + cbn in Hr. lia. }
  intros Hes. apply H; [| exact Hes].
  cbn. split; [lia |]. split; [discriminate | intros Hc; now elim Hc].
Qed.

Lemma button_only_single_flight_witness :
  List.length
    (inflight
       (run_events (boot "t0")
          [ChangeConsent true; ChangeInput "first"; ClickSend "t1";
           ChangeInput "second"; ClickSend "t2";
           KeyDown {| key := "Enter"; metaKey := false; ctrlKey := false |}
             "t3"]))
  <= 1.
Proof.
  apply (button_only_single_flight "t0"
           [ChangeConsent true; ChangeInput "first"; ClickSend "t1";
            ChangeInput "second"; ClickSend "t2";
            KeyDown {| key := "Enter"; metaKey := false; ctrlKey := false |}
              "t3"]).
  reflexivity.
Defined.

(** ** Settling a request *)

(** X6.  When the request of a waiting call settles, whatever the
    outcome and whatever else is still waiting: [loading] becomes
    false, exactly one assistant turn is appended, that call stops
    waiting and the others keep waiting, and no request is sent (no
    retry). *)
Theorem settle_clears_loading
  (s : Session) (n : nat) (c : State) (o : FetchOutcome) (now : string) :
  nth_error (inflight s) n = Some c ->
  loading (st (live (step s (Settle n o now)))) = false
  /\ (exists m,
         messages (st (live (step s (Settle n o now))))
         = messages (st (live s)) ++ [m]
         /\ role m = assistant)
  /\ inflight (step s (Settle n o now)) = remove_nth n (inflight s)
  /\ S (List.length (inflight (step s (Settle n o now))))
     = List.length (inflight s)
  /\ requests (trace (live (step s (Settle n o now))))
     = requests (trace (live s)).
Proof.
  intros Hn. cbn [step]. rewrite Hn.
  destruct (settle_waiting s n c o now Hn)
    as (m & k & Hm & Hr & _ & _ & Hl & Hk & _ & Hq).
  split; [exact Hl |]. split; [now exists m |]. cbn [inflight].
  split; [reflexivity |]. split; [| exact Hq].
  apply remove_nth_length. apply nth_error_Some. rewrite Hn. discriminate.
Qed.

Lemma settle_clears_loading_witness :
  loading (st (live (step two_waiting (Settle 0 FetchRejected "t3")))) = false
  /\ S (List.length
          (inflight (step two_waiting (Settle 0 FetchRejected "t3"))))
     = List.length (inflight two_waiting).
Proof.
  destruct (settle_clears_loading two_waiting 0 (ready "t0" "first")
              FetchRejected "t3" eq_refl)
    as (Hl & _ & _ & Hlen & _).
  split; [exact Hl | exact Hlen].
Defined.

(** ** The crisis dialog *)

Lemma handleSend_sync_keeps_modal (r : State) (now : string) (w : World) :
  showCrisisModal (st w) = true ->
  showCrisisModal (st (snd (handleSend_sync r now w))) = true.
Proof.
  intros H. destruct (passes_validation r) eqn:Hv.
  - rewrite (handleSend_sync_accepted r now w Hv). cbn. rewrite H.
    now destruct (containsCrisis (JS.trim (input r))).
  - unfold passes_validation in Hv.
    destruct (JS.truthy (JS.trim (input r))) eqn:Ht.
    + cbn [andb] in Hv. now rewrite (handleSend_sync_no_consent r now w Ht Hv).
    + assert (He : JS.trim (input r) = "").
      { destruct (JS.trim (input r)); [reflexivity | discriminate]. }
      now rewrite (handleSend_sync_empty r now w He).
Qed.

Lemma launch_live (m : M SendStatus) (s : Session) :
  live (launch m s) = snd (m (live s)).
Proof.
  unfold launch. destruct (m (live s)) as [[[| t] | e] w]; reflexivity.
Qed.

Lemma handleSend_resume_keeps_modal
  (c : State) (o : FetchOutcome) (now : string) (w : World) :
  showCrisisModal (st w) = true ->
  showCrisisModal (st (snd (handleSend_resume c o now w))) = true.
Proof.
  intros H. destruct (transport_result o) as [data |] eqn:Ho.
  - rewrite (handleSend_resume_success c o data now w Ho). cbn. rewrite H.
    now destruct (is_flagged data && negb (showCrisisModal c)).
  - now rewrite (handleSend_resume_failure c o now w Ho).
Qed.

(** X7.  Once the crisis dialog is shown, only its Close button hides
    it: every other event (typing, settings, a submit by button or by
    key, accepted or rejected, a request settling with any outcome)
    leaves it shown. *)
Theorem only_close_hides_modal (s : Session) (e : Event) :
  e <> CloseCrisisModal ->
  showCrisisModal (st (live s)) = true ->
  showCrisisModal (st (live (step s e))) = true.
Proof.
  intros He H.
  destruct e as [v | v | v | b | now | k now | | | n o now]; cbn [step];
    try exact H.
  - rewrite launch_live. unfold sendButtonClick.
    destruct (loading (st (live s))); [exact H |].
    now apply handleSend_sync_keeps_modal.
  - rewrite launch_live. unfold handleKeyDown.
    destruct (String.eqb (key k) "Enter" && (metaKey k || ctrlKey k));
      [| exact H].
    now apply handleSend_sync_keeps_modal.
  - now elim He.
  - destruct (nth_error (inflight s) n) as [c |]; [| exact H].
    now apply handleSend_resume_keeps_modal.
Qed.

Lemma only_close_hides_modal_witness :
  showCrisisModal
    (st (live
           (step
              (run_events (boot "t0")
                 [ChangeConsent true; ChangeInput "I want to die";
                  ClickSend "t1"])
              (Settle 0
                 (FetchResolved
                    {| status := 200;
                       body := BodyJson {| reply := Some "I hear you.";
                                           flagged := Some false |} |})
                 "t2"))))
  = true.
Proof.
  apply (only_close_hides_modal
           (run_events (boot "t0")
              [ChangeConsent true; ChangeInput "I want to die";
               ClickSend "t1"])).
  - discriminate.
  - reflexivity.
Defined.

(** X8.  On a successful reply the dialog is opened by the upstream flag
    only when it was closed in the render the call was started from;
    the live value is not consulted.  So a flagged reply opens the
    dialog for a call started with the dialog closed, and leaves the
    dialog as it is (also closed, if the user closed it while the
    request was pending) for a call started with the dialog open. *)
Theorem upstream_flag_uses_render
  (c : State) (o : FetchOutcome) (data : ResponseData) (now : string)
  (w : World) :
  transport_result o = Some data ->
  showCrisisModal (st (snd (handleSend_resume c o now w)))
  = (is_flagged data && negb (showCrisisModal c)) || showCrisisModal (st w).
Proof.
  intros Ho. rewrite (handleSend_resume_success c o data now w Ho). cbn.
  now destruct (is_flagged data && negb (showCrisisModal c)).
Qed.

Lemma upstream_flag_uses_render_witness :
  showCrisisModal
    (st (snd (handleSend_resume
                (with_modal true (ready "t0" "hello"))
                (FetchResolved
                   {| status := 200;
                      body := BodyJson {| reply := Some "Take care.";
                                          flagged := Some true |} |})
                "t2"
                (start (with_modal false (ready "t0" "hello"))))))
  = false.
Proof.
  apply (upstream_flag_uses_render
           (with_modal true (ready "t0" "hello"))
           (FetchResolved
              {| status := 200;
                 body := BodyJson {| reply := Some "Take care.";
                                     flagged := Some true |} |})
           {| reply := Some "Take care."; flagged := Some true |}
           "t2" (start (with_modal false (ready "t0" "hello")))).
  reflexivity.
Defined.

(** ** What a request carries *)

Lemma payload_short_log (r : State) (t : string) :
  List.length (messages r) <= 19 ->
  payload_messages (payload r t)
  = map LogEntry (messages r) ++ [RoleText user t].
Proof.
  intros H. rewrite payload_messages_split. unfold JS.slice_last.
  rewrite length_map.
  replace (List.length (messages r) - 19) with 0 by lia. reflexivity.
Qed.

(** X9.  The payload has exactly min(n + 1, 20) entries for a log of n
    turns.  While the log has at most 19 turns the whole log is sent,
    oldest turn first, followed by the new user turn. *)
Theorem payload_size (r : State) (t : string) :
  List.length (payload_messages (payload r t))
  = Nat.min (List.length (messages r) + 1) 20
  /\ (List.length (messages r) <= 19 ->
      payload_messages (payload r t)
      = map LogEntry (messages r) ++ [RoleText user t]).
Proof.
  split.
  - unfold payload, JS.slice_last. cbn [payload_messages].
    rewrite length_skipn, length_app, length_map. cbn [List.length]. lia.
  - apply payload_short_log.
Qed.

Lemma payload_size_witness :
  payload_messages (payload (initialState "t0") "hello")
  = map LogEntry (messages (initialState "t0")) ++ [RoleText user "hello"].
Proof.
  apply (payload_size (initialState "t0") "hello"). cbn. lia.
Defined.

Lemma seed_first_kept_by_step (s : Session) (e : Event) :
  (exists hd tl,
      messages (st (live s)) = hd :: tl
      /\ role hd = system /\ Forall (fun m => role m <> system) tl) ->
  exists hd tl,
    messages (st (live (step s e))) = hd :: tl
    /\ role hd = system /\ Forall (fun m => role m <> system) tl.
Proof.
  intros (hd & tl & Hs & Hhd & Htl).
  destruct (step_cases s e)
    as [(Hm & _) | [(m & Hm & Hr & _) | (m & n & Hm & Hr & _)]].
  - exists hd, tl. now rewrite Hm.
  - exists hd, (tl ++ [m]). rewrite Hm, Hs. repeat split; [exact Hhd |].
    apply Forall_app. split; [exact Htl |]. constructor; [| constructor].
    rewrite Hr. discriminate.
  - exists hd, (tl ++ [m]). rewrite Hm, Hs. repeat split; [exact Hhd |].
    apply Forall_app. split; [exact Htl |]. constructor; [| constructor].
    rewrite Hr. discriminate.
Qed.

(** X10.  In any session, once the log has 20 turns or more, the system
    instructions turn is no longer part of a request: no entry of the
    payload has the role system.  With fewer turns the payload starts
    with the system instructions. *)
Theorem long_log_drops_system_turn
  (now : string) (es : list Event) (t : string) :
  (20 <= List.length (messages (st (live (run_events (boot now) es)))) ->
   Forall (fun e => entry_role e <> system)
          (payload_messages
             (payload (st (live (run_events (boot now) es))) t)))
  /\ (List.length (messages (st (live (run_events (boot now) es)))) <= 19 ->
      exists rest,
        payload_messages (payload (st (live (run_events (boot now) es))) t)
        = LogEntry {| id := 0; role := system; text := SYSTEM_PROMPT;
                      time := now |} :: rest).
Proof.
  split.
  - intros Hlen.
    assert (H : exists hd tl,
               messages (st (live (run_events (boot now) es))) = hd :: tl
               /\ role hd = system
               /\ Forall (fun m => role m <> system) tl).
    { apply (run_events_invariant
               (fun s => exists hd tl,
                    messages (st (live s)) = hd :: tl
                    /\ role hd = system
                    /\ Forall (fun m => role m <> system) tl)).
      - apply seed_first_kept_by_step.
      - eexists _, _. cbn. repeat split.
        constructor; [discriminate | constructor]. }
    destruct H as (hd & tl & Hs & _ & Htl).
    rewrite payload_messages_split, Hs. rewrite Hs in Hlen. cbn in Hlen.
    apply Forall_app. split.
    + unfold JS.slice_last. cbn [map List.length]. rewrite length_map.
      replace (S (List.length tl) - 19) with (S (List.length tl - 19)) by lia.
      cbn [skipn].
      assert (Hall : Forall (fun e => entry_role e <> system)
                            (map LogEntry tl)).
      { apply Forall_map. exact Htl. }
      destruct (slice_last_suffix 19 (map LogEntry tl)) as [d Hd].
      unfold JS.slice_last in Hd. rewrite length_map in Hd.
      rewrite Hd in Hall. now apply Forall_app in Hall.
    + constructor; [discriminate | constructor].
  - intros Hlen.
    destruct (run_events_appends (boot now) es) as [rest Hrest].
    rewrite (payload_short_log _ t Hlen), Hrest. cbn.
    eexists. reflexivity.
Qed.

Lemma long_log_drops_system_turn_witness :
  Forall (fun e => entry_role e <> system)
         (payload_messages
            (payload (st (live (run_events (boot "t0") (exchanges 9))))
               "hello"))
  /\ exists rest,
       payload_messages
         (payload (st (live (run_events (boot "t0") (exchanges 8)))) "hello")
       = LogEntry {| id := 0; role := system; text := SYSTEM_PROMPT;
                     time := "t0" |} :: rest.
Proof.
  split.
  - apply (proj1 (long_log_drops_system_turn "t0" (exchanges 9) "hello")).
    vm_compute. lia.
  - apply (proj2 (long_log_drops_system_turn "t0" (exchanges 8) "hello")).
    vm_compute. lia.
Defined.

(** ** Submitting *)

Lemma trimStart_all_white (s : string) :
  all_white (JS.trimStart s) = all_white s.
Proof.
  induction s as [| c s IH]; [reflexivity |]. cbn.
  destruct (JS.isWhiteSpace c) eqn:E; cbn; [exact IH | now rewrite E].
Qed.

Lemma trimEnd_empty_iff (s : string) :
  JS.trimEnd s = "" <-> all_white s = true.
Proof.
  induction s as [| c s IH]; cbn; [tauto |].
  destruct (JS.trimEnd s) as [| d r].
  - rewrite (proj1 IH eq_refl), andb_true_r.
    destruct (JS.isWhiteSpace c); split; (reflexivity || discriminate).
  - split; [discriminate |]. intros H. apply andb_true_iff in H.
    destruct H as [_ H]. apply IH in H. discriminate.
Qed.

(** The input trims to nothing exactly when it is white space only. *)
Lemma trim_empty_iff (s : string) :
  JS.trim s = "" <-> all_white s = true.
Proof.
  unfold JS.trim. now rewrite trimEnd_empty_iff, trimStart_all_white.
Qed.

Lemma app_grows {A : Type} (l : list A) (x : A) (l' : list A) :
  l ++ x :: l' <> l.
Proof.
  intros H. apply (f_equal (@List.length A)) in H.
  rewrite length_app in H. cbn in H. lia.
Qed.

Lemma handleSend_sync_unchanged_iff (r : State) (now : string) (w : World) :
  handleSend_sync r now w = (Normal Returned, w)
  <-> all_white (input r) = true.
Proof.
  rewrite <- trim_empty_iff. split.
  - intros H. destruct (JS.trim (input r)) as [| c t] eqn:Et; [reflexivity |].
    exfalso. destruct (consentChecked r) eqn:Hc.
    + assert (Hv : passes_validation r = true).
      { unfold passes_validation. now rewrite Et, Hc. }
      rewrite (handleSend_sync_accepted r now w Hv) in H. discriminate H.
    + assert (Ht : JS.truthy (JS.trim (input r)) = true) by now rewrite Et.
      rewrite (handleSend_sync_no_consent r now w Ht Hc) in H.
      injection H as H. apply (f_equal trace) in H. cbn in H.
      exact (app_grows _ _ _ H).
  - apply handleSend_sync_empty.
Qed.

(** X11.  A submit leaves the component untouched (no setter called, no
    request) exactly when the input holds white space only; this
    includes the empty input.  With any other input the handler acts:
    it sends, or reports the missing consent. *)
Theorem submit_ignored_iff_blank (r : State) (now : string) (w : World) :
  handleSend_sync r now w = (Normal Returned, w)
  <-> all_white (input r) = true.
Proof. apply handleSend_sync_unchanged_iff. Qed.

(** X12.  After an accepted submit the input buffer is empty, so a
    second submit made without typing again (a double click, a repeated
    key press) is ignored: the same text is never sent twice. *)
Theorem resubmit_without_typing_ignored
  (r : State) (now : string) (w : World) (now' : string) (w' : World) :
  passes_validation r = true ->
  input (st (snd (handleSend_sync r now w))) = ""
  /\ handleSend_sync (st (snd (handleSend_sync r now w))) now' w'
     = (Normal Returned, w').
Proof.
  intros Hv.
  assert (Hi : input (st (snd (handleSend_sync r now w))) = "").
  { now rewrite (handleSend_sync_accepted r now w Hv). }
  split; [exact Hi |]. apply handleSend_sync_empty. now rewrite Hi.
Qed.

Lemma resubmit_without_typing_ignored_witness :
  handleSend_sync
    (st (snd (handleSend_sync (ready "t0" "hello") "t1"
                (start (ready "t0" "hello")))))
    "t2"
    (snd (handleSend_sync (ready "t0" "hello") "t1"
            (start (ready "t0" "hello"))))
  = (Normal Returned,
     snd (handleSend_sync (ready "t0" "hello") "t1"
            (start (ready "t0" "hello")))).
Proof.
  apply (resubmit_without_typing_ignored (ready "t0" "hello") "t1"
           (start (ready "t0" "hello")) "t2").
  reflexivity.
Defined.

(** X13.  An accepted submit replaces whatever error was shown: after
    the round trip [error] is empty when the transport call succeeded
    and the fixed message when it failed.  A submit rejected for
    missing consent keeps the typed text in the input buffer. *)
Theorem error_after_submit
  (r : State) (now1 : string) (o : FetchOutcome) (now2 : string) (w : World) :
  (passes_validation r = true ->
   error (st (snd (handleSend r now1 o now2 w)))
   = match transport_result o with
     | Some _ => None
     | None => Some SEND_ERROR
     end)
  /\ (JS.truthy (JS.trim (input r)) = true ->
      consentChecked r = false ->
      input (st (snd (handleSend r now1 o now2 w))) = input (st w)
      /\ error (st (snd (handleSend r now1 o now2 w))) = Some CONSENT_ERROR).
Proof.
  split.
  - intros Hv. rewrite (handleSend_accepted r now1 o now2 w Hv).
    destruct (transport_result o) as [data |] eqn:Ho.
    + now rewrite (handleSend_resume_success r o data now2 _ Ho).
    + now rewrite (handleSend_resume_failure r o now2 _ Ho).
  - intros Ht Hc. unfold handleSend, bind.
    now rewrite (handleSend_sync_no_consent r now1 w Ht Hc).
Qed.

Lemma error_after_submit_witness :
  error
    (st (snd (handleSend (after_error "t0" "hello") "t1"
                (FetchResolved
                   {| status := 200;
                      body := BodyJson {| reply := Some "Hello.";
                                          flagged := None |} |})
                "t2" (start (after_error "t0" "hello")))))
  = None
  /\ input
       (st (snd (handleSend (no_consent "t0" "hello") "t1" FetchRejected "t2"
                   (start (no_consent "t0" "hello")))))
     = "hello".
Proof.
  split.
  - apply (proj1 (error_after_submit (after_error "t0" "hello") "t1"
                    (FetchResolved
                       {| status := 200;
                          body := BodyJson {| reply := Some "Hello.";
                                              flagged := None |} |})
                    "t2" (start (after_error "t0" "hello")))).
    reflexivity.
  - apply (proj2 (error_after_submit (no_consent "t0" "hello") "t1"
                    FetchRejected "t2" (start (no_consent "t0" "hello"))));
      reflexivity.
Defined.

(** X14.  A key press in the text area leaves the component untouched
    exactly when it is not Enter together with Ctrl or Cmd, or the input
    is blank: plain Enter and every other key never submit. *)
Theorem keydown_ignored_iff
  (r : State) (e : KeyboardEvent) (now : string) (w : World) :
  handleKeyDown r e now w = (Normal Returned, w)
  <-> (key e <> "Enter" \/ (metaKey e = false /\ ctrlKey e = false)
       \/ all_white (input r) = true).
Proof.
  unfold handleKeyDown.
  destruct (String.eqb_spec (key e) "Enter") as [Hk | Hk]; cbn [andb].
  - destruct (metaKey e), (ctrlKey e); cbn [orb];
      rewrite ?handleSend_sync_unchanged_iff; split;
      try (intros H; right; right; exact H);
      try (intros [H | [[H1 H2] | H]];
           [now elim H | discriminate | exact H]);
      try (intros _; right; left; split; reflexivity);
      try reflexivity.
  - split; [intros _; now left | reflexivity].
Qed.

(** ** The transcript *)

Section TranscriptFacts.

Variable toLocaleString : string -> string.

Lemma join_app (sep : string) (l1 l2 : list string) :
  l1 <> [] -> l2 <> [] ->
  join sep (l1 ++ l2) = (join sep l1 ++ sep ++ join sep l2)%string.
Proof.
  intros H1 H2. induction l1 as [| x l1 IH]; [now elim H1 |].
  destruct l1 as [| y l1].
  - cbn. destruct l2; [now elim H2 | reflexivity].
  - change (join sep ((x :: y :: l1) ++ l2))
      with (x ++ sep ++ join sep ((y :: l1) ++ l2))%string.
    rewrite IH by discriminate.
    change (join sep (x :: y :: l1))
      with (x ++ sep ++ join sep (y :: l1))%string.
    now rewrite !append_assoc.
Qed.

(** X15.  The transcript of a log is the transcript of any earlier part
    of it, a blank line, and the transcript of the rest: blocks come in
    log order, and a later export extends an earlier one. *)
Theorem transcript_text_app (l1 l2 : list Message) :
  l1 <> [] -> l2 <> [] ->
  transcript_text toLocaleString (l1 ++ l2)
  = (transcript_text toLocaleString l1 ++ BLANK_LINE
     ++ transcript_text toLocaleString l2)%string.
Proof.
  intros H1 H2. unfold transcript_text. rewrite map_app.
  apply join_app.
  - destruct l1; [now elim H1 | discriminate].
  - destruct l2; [now elim H2 | discriminate].
Qed.

Lemma join_holds (sep : string) (l : list string) (x : string) :
  In x l -> exists pre post, join sep l = (pre ++ x ++ post)%string.
Proof.
  induction l as [| y l IH]; [intros [] |].
  intros [-> | Hin].
  - destruct l as [| z l].
    + exists "", "". cbn. induction x as [| c x IHx]; cbn; [reflexivity |].
      now rewrite <- IHx.
    + exists "", (sep ++ join sep (z :: l))%string. reflexivity.
  - destruct l as [| z l]; [destruct Hin |].
    destruct (IH Hin) as (pre & post & Hj).
    exists (y ++ sep ++ pre)%string, post.
    change (join sep (y :: z :: l))
      with (y ++ sep ++ join sep (z :: l))%string.
    now rewrite Hj, !append_assoc.
Qed.

(** X16.  Every turn of the log is in the transcript: its block occurs
    in the text, and so does the text of the turn, unchanged. *)
Theorem transcript_holds_every_turn (l : list Message) (m : Message) :
  In m l ->
  (exists pre post,
      transcript_text toLocaleString l
      = (pre ++ transcript_block toLocaleString m ++ post)%string)
  /\ JS.includes (transcript_text toLocaleString l) (text m) = true.
Proof.
  intros Hin.
  assert (H : exists pre post,
             transcript_text toLocaleString l
             = (pre ++ transcript_block toLocaleString m ++ post)%string).
  { apply join_holds. now apply in_map. }
  split; [exact H |]. destruct H as (pre & post & H).
  apply includes_spec.
  exists (pre ++ "[" ++ toLocaleString (time m) ++ "] "
          ++ toUpperCase (role_name (role m)) ++ ": ")%string, post.
  rewrite H. unfold transcript_block. now rewrite !append_assoc.
Qed.

End TranscriptFacts.

Lemma transcript_text_app_witness :
  transcript_text (fun t => t)
    ([ {| id := 0; role := system; text := "be kind"; time := "t0" |} ]
     ++ [ {| id := 1; role := user; text := "hello"; time := "t1" |} ])
  = (transcript_text (fun t => t)
       [ {| id := 0; role := system; text := "be kind"; time := "t0" |} ]
     ++ BLANK_LINE
     ++ transcript_text (fun t => t)
          [ {| id := 1; role := user; text := "hello"; time := "t1" |} ])%string.
Proof.
  apply (transcript_text_app (fun t => t)
           [ {| id := 0; role := system; text := "be kind"; time := "t0" |} ]
           [ {| id := 1; role := user; text := "hello"; time := "t1" |} ]);
    discriminate.
Defined.

Lemma transcript_holds_every_turn_witness :
  JS.includes
    (transcript_text (fun t => t) (messages (initialState "t0")))
    GREETING
  = true.
Proof.
  apply (transcript_holds_every_turn (fun t => t)
           (messages (initialState "t0"))
           {| id := 1; role := assistant; text := GREETING; time := "t0" |}).
  cbn. tauto.
Defined.

Example transcript_two_turns :
  transcript_text (fun t => t)
    [ {| id := 0; role := system; text := "be kind"; time := "t0" |};
      {| id := 1; role := user; text := "hello"; time := "t1" |} ]
  = ("[t0] SYSTEM: be kind" ++ BLANK_LINE ++ "[t1] USER: hello")%string.
Proof. reflexivity. Qed.

(** X17.  The transcript does not determine the log: texts are written
    as they are, so one turn whose text holds a blank line and a block
    header reads exactly like two turns.  This holds for every way of
    formatting the times. *)
Theorem transcript_not_injective (toLocaleString : string -> string) :
  exists l1 l2 : list Message,
    List.length l1 <> List.length l2
    /\ transcript_text toLocaleString l1 = transcript_text toLocaleString l2.
Proof.
  exists
    [ {| id := 2; role := user; text := "a"; time := "t" |};
      {| id := 3; role := user; text := "b"; time := "t" |} ],
    [ {| id := 2; role := user;
         text := ("a" ++ BLANK_LINE ++ "[" ++ toLocaleString "t" ++ "] "
                  ++ "USER" ++ ": " ++ "b")%string;
         time := "t" |} ].
  split; [discriminate |].
  unfold transcript_text, transcript_block. cbn [map join role text time].
  change (toUpperCase (role_name user)) with "USER".
  now rewrite !append_assoc.
Qed.

(** ** The classifier *)

Lemma mentions_crisis_context (pre t post : string) :
  mentions_crisis t -> mentions_crisis (pre ++ t ++ post)%string.
Proof.
  intros (kw & Hin & a & mid & b & -> & Hm).
  exists kw. split; [exact Hin |].
  exists (pre ++ a)%string, mid, (b ++ post)%string.
  split; [| exact Hm]. now rewrite !append_assoc.
Qed.

(** X18.  The classifier looks at letters only up to case and is not
    misled by context: two texts that agree unit by unit up to case get
    the same answer, and a text that is flagged stays flagged whatever
    is put before and after it. *)
Theorem containsCrisis_case_and_context (s t pre post : string) :
  (matches_ignoring_case s t -> containsCrisis s = containsCrisis t)
  /\ (containsCrisis t = true ->
      containsCrisis (pre ++ t ++ post)%string = true).
Proof.
  split.
  - intros H. apply matches_ignoring_case_lower in H.
    now rewrite !containsCrisis_scan, H.
  - intros H. apply containsCrisis_iff. apply mentions_crisis_context.
    now apply containsCrisis_iff.
Qed.

Lemma containsCrisis_case_and_context_witness :
  containsCrisis "KILL MYSELF" = containsCrisis "kill myself"
  /\ containsCrisis ("Sometimes I " ++ "want to die" ++ ", honestly")%string
     = true.
Proof.
  split.
  - apply (proj1 (containsCrisis_case_and_context
                    "KILL MYSELF" "kill myself" "" "")).
    apply matches_ignoring_case_lower. reflexivity.
  - apply (proj2 (containsCrisis_case_and_context
                    "" "want to die" "Sometimes I " ", honestly")).
    reflexivity.
Defined.

Lemma white_not_capital (c : ascii) :
  JS.isWhiteSpace c = true -> JS.toLowerUnit c = c.
Proof.
  intros H. apply toLowerUnit_other. unfold JS.isWhiteSpace in H.
  cbv zeta in H. unfold is_capital. cbv zeta.
  rewrite !orb_true_iff, andb_true_iff, !Nat.leb_le, !Nat.eqb_eq in H. lia.
Qed.

Lemma white_differs_from_solid (c k : ascii) :
  JS.isWhiteSpace c = true -> JS.isWhiteSpace k = false ->
  Ascii.eqb (JS.toLowerUnit c) k = false.
Proof.
  intros Hc Hk. rewrite (white_not_capital c Hc).
  apply Ascii.eqb_neq. intros ->. rewrite Hc in Hk. discriminate.
Qed.

Lemma ends_solid_tail (k : ascii) (p : string) :
  ends_solid (String k p) = true -> ends_solid p = true.
Proof. destruct p; [reflexivity | intros H; exact H]. Qed.

Lemma startsWith_white (s p : string) :
  all_white s = true -> ends_solid p = true -> p <> "" ->
  JS.startsWith (JS.toLowerCase s) p = false.
Proof.
  revert s. induction p as [| k p IH]; intros s Hs Hp Hne; [now elim Hne |].
  destruct s as [| c s]; [reflexivity |]. cbn in Hs.
  apply andb_true_iff in Hs. destruct Hs as [Hc Hs].
  cbn [JS.toLowerCase JS.startsWith].
  destruct p as [| k' p].
  - cbn in Hp. apply negb_true_iff in Hp.
    now rewrite (white_differs_from_solid c k Hc Hp).
  - rewrite (IH s Hs (ends_solid_tail k _ Hp)) by discriminate.
    apply andb_false_r.
Qed.

Lemma includes_white (s p : string) :
  all_white s = true -> ends_solid p = true -> p <> "" ->
  JS.includes (JS.toLowerCase s) p = false.
Proof.
  intros Hs Hp Hne. induction s as [| c s IH].
  - cbn. rewrite orb_false_r. destruct p; [now elim Hne | reflexivity].
  - cbn [JS.toLowerCase JS.includes].
    change (String (JS.toLowerUnit c) (JS.toLowerCase s))
      with (JS.toLowerCase (String c s)).
    rewrite (startsWith_white (String c s) p Hs Hp Hne).
    cbn in Hs. apply andb_true_iff in Hs. now apply IH.
Qed.

Lemma startsWith_trimEnd (s p : string) :
  ends_solid p = true ->
  JS.startsWith (JS.toLowerCase (JS.trimEnd s)) p
  = JS.startsWith (JS.toLowerCase s) p.
Proof.
  revert p. induction s as [| c s IH]; intros p Hp; [reflexivity |].
  destruct p as [| k p]; [reflexivity |].
  cbn [JS.trimEnd].
  destruct (JS.trimEnd s) as [| d r] eqn:Er.
  - assert (Hs : all_white s = true) by now apply trimEnd_empty_iff.
    destruct (JS.isWhiteSpace c) eqn:Hc.
    + symmetry. apply startsWith_white; [| exact Hp | discriminate].
      cbn. now rewrite Hc, Hs.
    + cbn [JS.toLowerCase JS.startsWith]. f_equal.
      destruct p as [| k' p]; [reflexivity |].
      symmetry. apply startsWith_white;
        [exact Hs | exact (ends_solid_tail k _ Hp) | discriminate].
  - cbn [JS.toLowerCase JS.startsWith]. f_equal.
    change (String (JS.toLowerUnit d) (JS.toLowerCase r))
      with (JS.toLowerCase (String d r)).
    apply IH. exact (ends_solid_tail k _ Hp).
Qed.

Lemma includes_same_parts (a a' : ascii) (s s' p : string) :
  JS.startsWith (String a s) p = JS.startsWith (String a' s') p ->
  JS.includes s p = JS.includes s' p ->
  JS.includes (String a s) p = JS.includes (String a' s') p.
Proof. intros H1 H2. cbn [JS.includes]. now rewrite H1, H2. Qed.

Lemma includes_trimEnd (s p : string) :
  ends_solid p = true -> p <> "" ->
  JS.includes (JS.toLowerCase (JS.trimEnd s)) p
  = JS.includes (JS.toLowerCase s) p.
Proof.
  intros Hp Hne. induction s as [| c s IH]; [reflexivity |].
  pose proof (startsWith_trimEnd (String c s) p Hp) as Hst.
  cbn [JS.trimEnd] in Hst |- *.
  destruct (JS.trimEnd s) as [| d r] eqn:Er.
  - assert (Hs : all_white s = true) by now apply trimEnd_empty_iff.
    destruct (JS.isWhiteSpace c) eqn:Hc.
    + rewrite (includes_white (String c s) p);
        [| cbn; now rewrite Hc, Hs | exact Hp | exact Hne].
      destruct p; [now elim Hne | reflexivity].
    + apply includes_same_parts; [exact Hst | exact IH].
  - apply includes_same_parts; [exact Hst | exact IH].
Qed.

Lemma includes_trimStart (s p : string) :
  head_solid p = true ->
  JS.includes (JS.toLowerCase (JS.trimStart s)) p
  = JS.includes (JS.toLowerCase s) p.
Proof.
  intros Hp. destruct p as [| k p]; [discriminate |]. cbn in Hp.
  apply negb_true_iff in Hp.
  induction s as [| c s IH]; [reflexivity |]. cbn [JS.trimStart].
  destruct (JS.isWhiteSpace c) eqn:Hc; [| reflexivity].
  rewrite IH. cbn [JS.toLowerCase JS.includes JS.startsWith].
  now rewrite (white_differs_from_solid c k Hc Hp).
Qed.

Lemma existsb_agree {A : Type} (f g : A -> bool) (l : list A) :
  (forall x, In x l -> f x = g x) -> existsb f l = existsb g l.
Proof.
  induction l as [| a l IH]; intros H; [reflexivity |]. cbn.
  rewrite (H a (or_introl eq_refl)), IH; [reflexivity |].
  intros x Hx. apply H. now right.
Qed.

Lemma CRISIS_KEYWORDS_solid (kw : string) :
  In kw CRISIS_KEYWORDS ->
  head_solid kw = true /\ ends_solid kw = true /\ kw <> "".
Proof.
  unfold CRISIS_KEYWORDS. simpl. intros H.
  repeat (destruct H as [<- | H];
          [split; [reflexivity | split; [reflexivity | discriminate]] |]).
  contradiction.
Qed.

(** X19.  White space around the text does not change the classifier's
    answer: the trimmed text, which the handler classifies, is flagged
    exactly when the text as typed is. *)
Theorem containsCrisis_trim (t : string) :
  containsCrisis (JS.trim t) = containsCrisis t.
Proof.
  rewrite !containsCrisis_scan. unfold JS.some, JS.trim.
  apply existsb_agree. intros kw Hin.
  destruct (CRISIS_KEYWORDS_solid kw Hin) as (Hh & He & Hne).
  now rewrite (includes_trimEnd _ kw He Hne), (includes_trimStart _ kw Hh).
Qed.

(** ** What a settling request leaves alone *)

(** X20.  When a request settles, with any outcome, the text being
    typed, the user name, the tone and the consent box are left as they
    are: a reply that arrives never disturbs the draft of the next
    message or the settings. *)
Theorem settle_keeps_draft
  (s : Session) (n : nat) (o : FetchOutcome) (now : string) :
  input (st (live (step s (Settle n o now)))) = input (st (live s))
  /\ userName (st (live (step s (Settle n o now)))) = userName (st (live s))
  /\ tone (st (live (step s (Settle n o now)))) = tone (st (live s))
  /\ consentChecked (st (live (step s (Settle n o now))))
     = consentChecked (st (live s)).
Proof.
  cbn [step]. destruct (nth_error (inflight s) n) as [c |];
    [| repeat split].
  cbn [live]. destruct (transport_result o) as [data |] eqn:Ho.
  - rewrite (handleSend_resume_success c o data now (live s) Ho).
    repeat split.
  - rewrite (handleSend_resume_failure c o now (live s) Ho).
    repeat split.
Qed.

(** ** The payload and the log *)

Lemma run_events_ids (now : string) (es : list Event) :
  map id (messages (st (live (run_events (boot now) es))))
  = positions (List.length (messages (st (live (run_events (boot now) es)))))
  /\ messageId (st (live (run_events (boot now) es)))
     = Z.of_nat
         (List.length (messages (st (live (run_events (boot now) es))))).
Proof.
  apply (run_events_invariant
           (fun s =>
              map id (messages (st (live s)))
              = positions (List.length (messages (st (live s))))
              /\ messageId (st (live s))
                 = Z.of_nat (List.length (messages (st (live s)))))).
  - intros s e [H1 H2]. now apply ids_kept_by_step.
  - split; reflexivity.
Qed.

Lemma positions_below (n : nat) (x : Z) :
  In x (positions n) -> (x < Z.of_nat n)%Z.
Proof.
  unfold positions. intros H. apply in_map_iff in H.
  destruct H as (k & <- & Hk). apply in_seq in Hk. lia.
Qed.

(** In a session every turn of the log has an id below the counter, so
    the id the next turn gets is not in the log. *)
Lemma next_id_is_fresh (now : string) (es : list Event) (m : Message) :
  In m (messages (st (live (run_events (boot now) es)))) ->
  id m <> messageId (st (live (run_events (boot now) es))).
Proof.
  intros Hin. destruct (run_events_ids now es) as [Hids Hnext].
  assert (H : In (id m)
                 (positions
                    (List.length
                       (messages (st (live (run_events (boot now) es))))))).
  { rewrite <- Hids. now apply in_map. }
  apply positions_below in H. rewrite Hnext. lia.
Qed.

Lemma filter_nothing {A : Type} (f : A -> bool) (l : list A) :
  Forall (fun x => f x = false) l -> filter f l = [].
Proof.
  induction 1 as [| x l Hx _ IH]; [reflexivity |]. cbn. now rewrite Hx.
Qed.

(** Entries taken from a log that does not hold the id of [m] never
    stand for [m]. *)
Lemma count_turn_other_ids (m : Message) (k : nat) (l : list Message) :
  (forall m', In m' l -> id m' <> id m) ->
  count_turn m (JS.slice_last k (map LogEntry l)) = 0.
Proof.
  intros H. unfold count_turn. rewrite filter_nothing; [reflexivity |].
  apply Forall_slice_last, Forall_map, Forall_forall. intros m' Hin. cbn.
  apply Z.eqb_neq. now apply H.
Qed.

Lemma role_eqb_refl (x : Role) : role_eqb x x = true.
Proof. now destruct x. Qed.

(** Had the payload been built from the log that already holds the new
    turn, the turn would be in it twice; [count_turn] sees that. *)
Example payload_from_log_after_append_counts_twice :
  count_turn
    {| id := 2; role := user; text := "hi"; time := "t1" |}
    (payload_messages
       (payload
          (with_messages
             (messages (initialState "t0")
              ++ [ {| id := 2; role := user; text := "hi"; time := "t1" |} ])
             (ready "t0" "hi"))
          "hi"))
  = 2.
Proof. reflexivity. Qed.

(** The same for every log: built from a log that already ends with the
    new turn, the payload holds the turn twice. *)
Lemma count_turn_after_append (m : Message) (l : list Message) :
  (forall m', In m' l -> id m' <> id m) ->
  role m = user ->
  count_turn m
    (JS.slice_last 20
       (map LogEntry (l ++ [m]) ++ [RoleText user (text m)]))
  = 2.
Proof.
  intros Hl Hr. rewrite map_app. cbn [map].
  rewrite slice_last_snoc, slice_last_snoc.
  unfold count_turn. rewrite !filter_app, !length_app.
  fold (count_turn m (JS.slice_last 18 (map LogEntry l))).
  rewrite (count_turn_other_ids m 18 l Hl). cbn.
  now rewrite Z.eqb_refl, Hr, String.eqb_refl.
Qed.

(** C6.  Whatever the log and the text being sent, the payload has at
    most 20 entries; they are the most recent entries of the log
    followed by the new user turn (a suffix of that list, the older
    entries dropped); and the last entry is the new user turn, with the
    text being sent.  In every session, an accepted submit appends the
    new user turn [m] to the log and sends the payload built from the
    log as it was before that append: the new turn is not among the
    entries taken from the log, and counting both the log's own object
    for [m] and the bare literal, it stands in the payload exactly
    once, as the last entry. *)
Theorem payload_window (r : State) (userText : string) :
  List.length (payload_messages (payload r userText)) <= 20
  /\ (exists dropped,
         map LogEntry (messages r) ++ [RoleText user userText]
         = dropped ++ payload_messages (payload r userText))
  /\ payload_messages (payload r userText)
     = JS.slice_last 19 (map LogEntry (messages r))
       ++ [RoleText user userText]
  /\ last (payload_messages (payload r userText)) (RoleText system "")
     = RoleText user userText
  /\ entry_text
       (last (payload_messages (payload r userText)) (RoleText system ""))
     = userText
  /\ forall (now : string) (es : list Event) (now' : string),
       passes_validation (st (live (run_events (boot now) es))) = true ->
       exists (m : Message) (p : Payload),
         messages
           (st (snd (handleSend_sync (st (live (run_events (boot now) es)))
                       now' (live (run_events (boot now) es)))))
         = messages (st (live (run_events (boot now) es))) ++ [m]
         /\ role m = user
         /\ text m = JS.trim (input (st (live (run_events (boot now) es))))
         /\ requests
              (trace
                 (snd (handleSend_sync
                         (st (live (run_events (boot now) es)))
                         now' (live (run_events (boot now) es)))))
            = requests (trace (live (run_events (boot now) es))) ++ [p]
         /\ payload_messages p
            = JS.slice_last 19
                (map LogEntry
                   (messages (st (live (run_events (boot now) es)))))
              ++ [RoleText (role m) (text m)]
         /\ ~ In (LogEntry m) (payload_messages p)
         /\ count_turn m
              (JS.slice_last 19
                 (map LogEntry
                    (messages (st (live (run_events (boot now) es))))))
            = 0
         /\ count_turn m (payload_messages p) = 1.
Proof.
  split; [apply slice_last_length |].
  split; [apply slice_last_suffix |].
  split; [apply payload_messages_split |].
  rewrite payload_messages_split, last_last.
  split; [reflexivity |]. split; [reflexivity |].
  intros now es now' Hv.
  set (s := run_events (boot now) es) in *.
  assert (Hfresh : forall m', In m' (messages (st (live s))) ->
                              id m' <> messageId (st (live s))).
  { intros m' Hin. now apply next_id_is_fresh. }
  assert (Hlog : count_turn (user_turn (st (live s)) (live s) now')
                   (JS.slice_last 19 (map LogEntry (messages (st (live s)))))
                 = 0).
  { apply count_turn_other_ids. exact Hfresh. }
  exists (user_turn (st (live s)) (live s) now'),
    (payload (st (live s)) (JS.trim (input (st (live s))))).
  rewrite (handleSend_sync_accepted (st (live s)) now' (live s) Hv).
  cbn [snd st trace messages state_at_await].
  rewrite requests_app, requests_trace_to_await, payload_messages_split.
  split; [reflexivity |]. split; [reflexivity |]. split; [reflexivity |].
  split; [reflexivity |]. split; [reflexivity |].
  split; [| split; [exact Hlog |]].
  - intros Hin. apply in_app_or in Hin. destruct Hin as [Hin | Hin].
    + destruct (slice_last_suffix 19 (map LogEntry (messages (st (live s)))))
        as [d Hd].
      assert (Hin' : In (LogEntry (user_turn (st (live s)) (live s) now'))
                        (map LogEntry (messages (st (live s))))).
      { rewrite Hd. apply in_or_app. now right. }
      apply in_map_iff in Hin'. destruct Hin' as (m' & Heq & Hm').
      injection Heq as ->. exact (Hfresh _ Hm' eq_refl).
    + destruct Hin as [Hin | []]. discriminate Hin.
  - unfold count_turn in *. rewrite filter_app, length_app, Hlog.
    cbn. now rewrite String.eqb_refl.
Qed.

Lemma payload_window_witness :
  exists (m : Message) (p : Payload),
    messages
      (st (snd (handleSend_sync
                  (st (live (run_events (boot "t0")
                               [ChangeConsent true; ChangeInput " hi "])))
                  "t1"
                  (live (run_events (boot "t0")
                           [ChangeConsent true; ChangeInput " hi "])))))
    = messages
        (st (live (run_events (boot "t0")
                     [ChangeConsent true; ChangeInput " hi "])))
      ++ [m]
    /\ text m = "hi"
    /\ count_turn m (payload_messages p) = 1.
Proof.
  destruct (payload_window (initialState "t0") "hi")
    as (_ & _ & _ & _ & _ & H).
  destruct (H "t0" [ChangeConsent true; ChangeInput " hi "] "t1" eq_refl)
    as (m & p & Hm & _ & Ht & _ & _ & _ & _ & Hc).
  exists m, p. split; [exact Hm |]. split; [exact Ht | exact Hc].
Defined.
